(** * AVR monitor (arduino-monitor-improved.ino): guarded memory access,
      register snapshot and line input, embedded as executable functions.

    Integers of the sketch are [Z] with the wrap-around of their C type
    written out ([uint8], [uint16], [uint32]).  The sketch talks to its
    surroundings through [millis()], the [Serial] object, volatile loads and
    stores, and the assembly routines; these are threaded through a small
    state-and-trace monad whose environment ([Env]) injects the clock, the
    serial line, the devices and the program memory.  Loops whose trip count
    is not known on entry take fuel; a run that is still inside such a loop
    when the fuel is gone ends in [Hang], with the state and trace it had.

    Embedded: the address predicates, [printHex8], [printHex16],
    [readInputLine], [readHexInput], [readDecInput] and cases '1' to '6' of
    [loop()].  The menu, its dispatch and case '7' (link-time addresses) are
    left out.  The assembly routines are not among the sources and are
    modelled from the specification. *)

From Stdlib Require Import ZArith String Ascii List Lia Bool.
From stdpp Require Import base list.
Import ListNotations.
Local Open Scope Z_scope.

(** ** C integer types *)

Definition uint8 (x : Z) : Z := x mod 256.
Definition uint16 (x : Z) : Z := x mod 65536.
Definition uint32 (x : Z) : Z := x mod 4294967296.
(** [int] has 16 bits on the AVR. *)
Definition int16 (x : Z) : Z := (x + 32768) mod 65536 - 32768.

(** ** Memory bounds for ATmega328P (the sketch's [#define]s) *)

Definition SRAM_START : Z := 0x0100.
Definition SRAM_END : Z := 0x08FF.
Definition FLASH_END : Z := 0x7FFF.
Definition IO_START : Z := 0x0020.
Definition IO_END : Z := 0x00FF.

Definition INPUT_TIMEOUT_MS : Z := 15000.
Definition INPUT_TIMEOUT_SENTINEL : Z := 0xFFFF.

(** [SREG_BUFFER_INDEX] comes from src/asm_defs.h, which is not part of the
    sources at hand; the analysis report of the repository gives its value. *)
Definition SREG_BUFFER_INDEX : nat := 32%nat.

(** Size of [reg_file]. *)
Definition REG_FILE_SIZE : nat := 64%nat.

(** ** Address predicates *)

Definition isValidSRAMAddress (addr : Z) : bool :=
  (SRAM_START <=? addr) && (addr <=? SRAM_END).

Definition isValidFlashAddress (addr : Z) : bool :=
  addr <=? FLASH_END.

Definition isIOAddress (addr : Z) : bool :=
  (IO_START <=? addr) && (addr <? SRAM_START).

(** ** Characters *)

Definition CH_LF : Z := 10.
Definition CH_CR : Z := 13.
Definition CH_BS : Z := 8.
Definition CH_DEL : Z := 127.
Definition CH_y : Z := 121.
Definition CH_Y : Z := 89.

Definition isdigit (c : Z) : bool := (48 <=? c) && (c <=? 57).

Definition isxdigit (c : Z) : bool :=
  isdigit c || ((97 <=? c) && (c <=? 102)) || ((65 <=? c) && (c <=? 70)).

(** Value of a digit character in the given base, if it is one. *)
Definition digit_value (base c : Z) : option Z :=
  let v := if isdigit c then c - 48
           else if (97 <=? c) && (c <=? 122) then c - 97 + 10
           else if (65 <=? c) && (c <=? 90) then c - 65 + 10
           else base in
  if v <? base then Some v else None.

Definition LONG_MAX : Z := 2147483647.

(** The digit run of [strtol]: accumulate digits of [base] until the first
    character that is not one (the terminating null included). *)
Fixpoint strtol_digits (base : Z) (acc : Z) (cs : list Z) : Z :=
  match cs with
  | [] => acc
  | c :: cs' =>
      match digit_value base c with
      | Some v => strtol_digits base (acc * base + v) cs'
      | None => acc
      end
  end.

(** [strtol(buffer, NULL, base)] on a buffer that starts with a digit run: no
    white space, sign or prefix is skipped, and a value beyond [LONG_MAX]
    saturates, as the C library does. *)
Definition strtol (buffer : list Z) (base : Z) : Z :=
  Z.min (strtol_digits base 0 buffer) LONG_MAX.

(** ** Events: the calls the sketch makes on its surroundings *)

Inductive Event : Type :=
| Print (s : string)            (* Serial.print(F(s)) *)
| Println (s : string)          (* Serial.println(F(s)); the empty string for println() *)
| PrintChar (c : Z)             (* Serial.print(c) for a char *)
| PrintlnChar (c : Z)           (* Serial.println(c) for a char *)
| PrintNum (v : Z) (base : Z)   (* Serial.print(v, base) *)
| Flush                         (* Serial.flush() *)
| Delay (ms : Z)                (* delay(ms) *)
| SerialRead (c : Z)            (* Serial.read() returned c *)
| BufWrite (i : Z) (c : Z)      (* buffer[i] = c in readInputLine *)
| Load (a : Z) (v : Z)          (* volatile load from data address a *)
| Store (a : Z) (v : Z)         (* volatile store to data address a *)
| PgmRead (a : Z) (v : Z)       (* pgm_read_byte(a) *)
| Jump (target : Z).            (* restore_and_call(target, reg_file) *)

(** ** Environment and state *)

Record Env : Type := mkEnv {
  (** the k-th reading of [millis()] *)
  env_millis : nat -> Z;
  (** bytes that reach the receive buffer just before the k-th poll of
      [Serial.available()] *)
  env_serial : nat -> list Z;
  (** what a data address outside SRAM holds after a store: address, old
      value, stored value *)
  env_device : Z -> Z -> Z -> Z;
  (** program memory *)
  env_flash : Z -> Z;
  (** the routine that [restore_and_call] reaches when it is handed a
      target: its effect on the registers and SREG when it returns, [None]
      when it never does *)
  env_code : Z -> option (list Z * Z -> list Z * Z)
}.

Record State : Type := mkState {
  ticks : nat;          (* readings of millis() taken so far *)
  polls : nat;          (* polls of Serial.available() so far *)
  rx : list Z;          (* receive buffer of Serial *)
  mem : Z -> Z;         (* data address space *)
  reg_file : list Z;    (* the snapshot buffer *)
  cpu : list Z;         (* r0..r31 *)
  sreg : Z              (* status register *)
}.

Definition set_ticks (n : nat) (s : State) : State :=
  mkState n (polls s) (rx s) (mem s) (reg_file s) (cpu s) (sreg s).
Definition set_serial (p : nat) (q : list Z) (s : State) : State :=
  mkState (ticks s) p q (mem s) (reg_file s) (cpu s) (sreg s).
Definition set_mem (m : Z -> Z) (s : State) : State :=
  mkState (ticks s) (polls s) (rx s) m (reg_file s) (cpu s) (sreg s).
Definition set_reg_file (r : list Z) (s : State) : State :=
  mkState (ticks s) (polls s) (rx s) (mem s) r (cpu s) (sreg s).
Definition set_cpu (c : list Z) (f : Z) (s : State) : State :=
  mkState (ticks s) (polls s) (rx s) (mem s) (reg_file s) c f.

(** ** The monad: state, event trace, [break] and non-return *)

Inductive Outcome (A : Type) : Type :=
| Done (a : A)      (* ran to its end *)
| Break             (* left the enclosing [case] by [break] *)
| Hang.             (* still inside a loop when the fuel ran out, or never returned *)
Arguments Done {A} a.
Arguments Break {A}.
Arguments Hang {A}.

Definition M (A : Type) : Type := State -> Outcome A * State * list Event.

Definition ret {A} (a : A) : M A := fun s => (Done a, s, []).
Definition brk {A} : M A := fun s => (Break, s, []).
Definition hang {A} : M A := fun s => (Hang, s, []).

Definition bind {A B} (m : M A) (f : A -> M B) : M B := fun s =>
  match m s with
  | (Done a, s1, e1) =>
      match f a s1 with
      | (r, s2, e2) => (r, s2, e1 ++ e2)
      end
  | (Break, s1, e1) => (Break, s1, e1)
  | (Hang, s1, e1) => (Hang, s1, e1)
  end.

Notation "x <- m ;; k" := (bind m (fun x => k))
  (at level 90, m at level 89, right associativity).
Notation "m ;;; k" := (bind m (fun _ => k))
  (at level 90, right associativity).

Definition emit (e : Event) : M unit := fun s => (Done tt, s, [e]).

Definition outcome {A} (r : Outcome A * State * list Event) : Outcome A := fst (fst r).
Definition final {A} (r : Outcome A * State * list Event) : State := snd (fst r).
Definition events {A} (r : Outcome A * State * list Event) : list Event := snd r.

(** [for (uint16_t i = start; i < start + n; i++) body(i)] for a loop whose
    trip count [n] is known on entry. *)
Fixpoint for_loop (n : nat) (i : Z) (body : Z -> M unit) : M unit :=
  match n with
  | O => ret tt
  | S n' => body i ;;; for_loop n' (i + 1) body
  end.

Definition NL : string := String (ascii_of_nat 10) EmptyString.
Definition BS_SP_BS : string :=
  String (ascii_of_nat 8) (String " "%char (String (ascii_of_nat 8) EmptyString)).

(** ** Utility functions *)

Definition printHex8 (val : Z) : M unit :=
  (if val <? 16 then emit (PrintChar 48) else ret tt) ;;;
  emit (PrintNum val 16).

Definition printHex16 (val : Z) : M unit :=
  printHex8 (uint8 (Z.shiftr val 8)) ;;;
  printHex8 (Z.land val 0xFF).

Section Monitor.

Variable E : Env.

(** ** The surroundings *)

(** [millis()]: the next reading of the injected clock, a [uint32_t]. *)
Definition millis : M Z := fun s =>
  (Done (uint32 (env_millis E (ticks s))), set_ticks (S (ticks s)) s, []).

(** [Serial.available()]: bytes that arrived since the last poll join the
    receive buffer; the result is the number of buffered bytes. *)
Definition Serial_available : M Z := fun s =>
  let q := rx s ++ env_serial E (polls s) in
  (Done (Z.of_nat (length q)), set_serial (S (polls s)) q s, []).

(** [Serial.read()]: the first buffered byte, or -1 when there is none. *)
Definition Serial_read : M Z := fun s =>
  match rx s with
  | [] => (Done (-1), s, [SerialRead (-1)])
  | c :: q => (Done c, set_serial (polls s) q s, [SerialRead c])
  end.

(** A volatile byte load from the data address [addr]. *)
Definition load (addr : Z) : M Z := fun s =>
  let v := uint8 (mem s addr) in (Done v, s, [Load addr v]).

(** A volatile byte store of [val] to the data address [addr]: an SRAM cell keeps what is stored; at
    any other data address the device decides what the address holds next. *)
Definition store (addr val : Z) : M unit := fun s =>
  let kept := if isValidSRAMAddress addr then val
              else env_device E addr (mem s addr) val in
  (Done tt, set_mem (fun x => if x =? addr then kept else mem s x) s, [Store addr val]).

(** [pgm_read_byte(addr)]. *)
Definition pgm_read_byte (addr : Z) : M Z := fun s =>
  let v := uint8 (env_flash E addr) in (Done v, s, [PgmRead addr v]).

(** [reg_file[idx] = val]. *)
Definition reg_file_set (idx : Z) (val : Z) : M unit := fun s =>
  (Done tt, set_reg_file (<[Z.to_nat idx := val]> (reg_file s)) s, []).

(** [reg_file[idx]]. *)
Definition reg_file_get (idx : nat) : M Z := fun s =>
  (Done (default 0 (reg_file s !! idx)), s, []).

(** [while (!Serial.available());] *)
Fixpoint wait_available (fuel : nat) : M unit :=
  match fuel with
  | O => hang
  | S fuel' =>
      n <- Serial_available ;;
      if n =? 0 then wait_available fuel' else ret tt
  end.

(** ** Register transfer routines (asm_utils_fixed.S) *)

(** [buf[i] = r_i, buf[i+1] = r_(i+1), ...] in place. *)
Fixpoint store_regs (i : nat) (rs : list Z) (buf : list Z) : list Z :=
  match rs with
  | [] => buf
  | r :: rs' => store_regs (S i) rs' (<[i := r]> buf)
  end.

(** Modelled from the spec: [capture_registers] is assembly that is not among
    the sources at hand.  The spec: it "writes the current value of every
    general-purpose register and the status/flags byte into the buffer at
    their canonical indices, without allowing the act of capturing to itself
    alter the values being captured". *)
Definition capture_registers : M unit := fun s =>
  (Done tt,
   set_reg_file (<[SREG_BUFFER_INDEX := sreg s]> (store_regs 0 (cpu s) (reg_file s))) s,
   []).

(** [(uint32_t)word_addr * 2]: the word-to-byte conversion as the sketch
    writes it, in the bound check of case '5' (line 323).  The product is
    taken in 32 bits. *)
Definition to_byte_address (word_address : Z) : Z := uint32 (word_address * 2).

(** Modelled from the spec: [restore_and_call] is assembly that is not among
    the sources at hand.  The spec: it "writes every general-purpose register
    from the buffer back into the machine, sets the status/flags register
    from the buffer, and transfers control to target"; this variant expects
    that "the target must return".  A target that does not return leaves the
    caller hanging.  [address] is the target as the caller hands it over; the
    trace records it as it is handed over. *)
Definition restore_and_call (address : Z) : M unit := fun s =>
  let regs := take 32 (reg_file s) in
  let flags := default 0 (reg_file s !! SREG_BUFFER_INDEX) in
  match env_code E address with
  | Some routine =>
      (Done tt, set_cpu (fst (routine (regs, flags))) (snd (routine (regs, flags))) s,
       [Jump address])
  | None => (Hang, set_cpu regs flags s, [Jump address])
  end.

(** ** Line input *)

(** One character that is neither a line end: lines 82-93 of the sketch.
    Gives the buffer and the position after it. *)
Definition readInputLine_char (maxLen : Z) (isHex : bool) (buffer : list Z)
    (pos : Z) (c : Z) : M (list Z * Z) :=
  if (c =? CH_BS) || (c =? CH_DEL) then
    if 0 <? pos then emit (Print BS_SP_BS) ;;; ret (buffer, uint8 (pos - 1))
    else ret (buffer, pos)
  else if pos <? maxLen - 1 then
    if (isHex && isxdigit c) || (negb isHex && isdigit c) then
      emit (BufWrite pos c) ;;;
      emit (PrintChar c) ;;;
      ret (<[Z.to_nat pos := c]> buffer, uint8 (pos + 1))
    else ret (buffer, pos)
  else ret (buffer, pos).

(** The [while (millis() - startTime < timeout_ms)] loop. *)
Fixpoint readInputLine_loop (fuel : nat) (maxLen : Z) (isHex : bool)
    (timeout_ms : Z) (buffer : list Z) (pos : Z) (startTime : Z) : M Z :=
  match fuel with
  | O => hang
  | S fuel' =>
      now <- millis ;;
      if uint32 (now - startTime) <? timeout_ms then
        n <- Serial_available ;;
        if negb (n =? 0) then
          r <- Serial_read ;;
          let c := uint8 r in
          if (c =? CH_LF) || (c =? CH_CR) then
            if 0 <? pos then
              emit (BufWrite pos 0) ;;;
              emit (Println "") ;;;
              ret (uint16 (strtol (<[Z.to_nat pos := 0]> buffer) (if isHex then 16 else 10)))
            else
              startTime' <- millis ;;
              readInputLine_loop fuel' maxLen isHex timeout_ms buffer pos startTime'
          else
            bp <- readInputLine_char maxLen isHex buffer pos c ;;
            startTime' <- millis ;;
            readInputLine_loop fuel' maxLen isHex timeout_ms (fst bp) (snd bp) startTime'
        else readInputLine_loop fuel' maxLen isHex timeout_ms buffer pos startTime
      else
        emit (Println (NL ++ "ERROR: Input timeout.")) ;;;
        ret INPUT_TIMEOUT_SENTINEL
  end.

Definition readInputLine (fuel : nat) (buffer : list Z) (maxLen : Z) (isHex : bool)
    (timeout_ms : Z) : M Z :=
  startTime <- millis ;;
  readInputLine_loop fuel maxLen isHex timeout_ms buffer 0 startTime.

(** [char buf[10]]: its first contents are indeterminate in C; nothing is read
    from it before it is written. *)
Definition fresh_buf : list Z := replicate 10 0.

Definition readHexInput (fuel : nat) : M Z :=
  readInputLine fuel fresh_buf 10 true INPUT_TIMEOUT_MS.

Definition readDecInput (fuel : nat) : M Z :=
  readInputLine fuel fresh_buf 10 false INPUT_TIMEOUT_MS.

(** The yes/no prompts of [loop()]: wait for a byte, read it, echo it. *)
Definition read_confirm (fuel : nat) : M Z :=
  wait_available fuel ;;;
  r <- Serial_read ;;
  let confirm := uint8 r in
  emit (PrintlnChar confirm) ;;;
  ret confirm.

Definition declined (confirm : Z) : bool :=
  negb (confirm =? CH_y) && negb (confirm =? CH_Y).

(** ** The cases of [loop()] *)

Definition TAB : string := String (ascii_of_nat 9) EmptyString.

(** [if (reg_file[SREG_BUFFER_INDEX] & mask) Serial.print(ch); else Serial.print('-');] *)
Definition print_flag (flags mask ch : Z) : M unit :=
  if negb (Z.land flags mask =? 0) then emit (PrintChar ch) else emit (PrintChar 45).

(** case '1': snapshot and display. *)
Definition loop_case_1 : M unit :=
  capture_registers ;;;
  emit (Println "Register Snapshot:") ;;;
  for_loop 32 0 (fun i =>
    emit (Print "r") ;;;
    (if i <? 10 then emit (PrintChar 48) else ret tt) ;;;
    emit (PrintNum i 10) ;;;
    emit (Print ": ") ;;;
    (v <- reg_file_get (Z.to_nat i) ;; printHex8 v) ;;;
    if (i + 1) mod 4 =? 0 then emit (Println "") else emit (Print TAB)) ;;;
  emit (Print "SREG: ") ;;;
  flags <- reg_file_get SREG_BUFFER_INDEX ;;
  printHex8 flags ;;;
  emit (Print " [") ;;;
  print_flag flags 0x80 73 ;;;
  print_flag flags 0x40 84 ;;;
  print_flag flags 0x20 72 ;;;
  print_flag flags 0x10 83 ;;;
  print_flag flags 0x08 86 ;;;
  print_flag flags 0x04 78 ;;;
  print_flag flags 0x02 90 ;;;
  print_flag flags 0x01 67 ;;;
  emit (PrintlnChar 93).

(** case '2', from the value prompt's result on: lines 207-216. *)
Definition modify_register_store (idx val_read : Z) : M unit :=
  if val_read =? INPUT_TIMEOUT_SENTINEL then brk else
  let val := uint8 val_read in
  reg_file_set idx val ;;;
  emit (Print "Updated r") ;;;
  emit (PrintNum idx 10) ;;;
  emit (Print " = 0x") ;;;
  printHex8 val ;;;
  emit (Println "").

(** case '2', from the index prompt's result on: lines 200-216. *)
Definition modify_register (fuel : nat) (idx : Z) : M unit :=
  if idx =? INPUT_TIMEOUT_SENTINEL then brk else
  if 31 <? idx then
    emit (Println "ERROR: Invalid index (must be 0-31)") ;;; brk
  else
    emit (Print "New Value (Hex): ") ;;;
    val_read <- readHexInput fuel ;;
    modify_register_store idx val_read.

(** case '2': modify a register in the snapshot. *)
Definition loop_case_2 (fuel : nat) : M unit :=
  emit (Print "Reg index (0-31): ") ;;;
  idx <- readDecInput fuel ;;
  modify_register fuel idx.

(** case '3', the check of the start address: lines 224-239. *)
Definition read_memory_check (fuel : nat) (addr : Z) : M unit :=
  if negb (isValidSRAMAddress addr) then
    emit (Print "WARNING: Address 0x") ;;;
    printHex16 addr ;;;
    emit (Println " is outside SRAM range!") ;;;
    (if isIOAddress addr then emit (Println "This is in I/O register space.")
     else ret tt) ;;;
    emit (Print "Continue anyway? (y/n): ") ;;;
    confirm <- read_confirm fuel ;;
    if declined confirm then emit (Println "Cancelled.") ;;; brk else ret tt
  else ret tt.

(** case '3', the body of the dump loop: lines 253-263. *)
Definition read_memory_byte (addr i : Z) : M unit :=
  (if i mod 16 =? 0 then
     emit (Println "") ;;;
     printHex16 (uint16 (addr + i)) ;;;
     emit (Print ": ")
   else ret tt) ;;;
  (v <- load (uint16 (addr + i)) ;; printHex8 v) ;;;
  emit (Print " ") ;;;
  if i mod 64 =? 63 then emit (Delay 1) else ret tt.

(** case '3', from the length prompt's result on: lines 243-266. *)
Definition read_memory_dump (addr len : Z) : M unit :=
  if len =? INPUT_TIMEOUT_SENTINEL then brk else
  if 0xFFFF <? uint32 (addr + len) then
    emit (Println "ERROR: Length would overflow address space!") ;;; brk
  else
    for_loop (Z.to_nat len) 0 (read_memory_byte addr) ;;;
    emit (Println "").

(** case '3': read data memory. *)
Definition loop_case_3 (fuel : nat) : M unit :=
  emit (Print "Address (Hex): ") ;;;
  addr <- readHexInput fuel ;;
  if addr =? INPUT_TIMEOUT_SENTINEL then brk else
  read_memory_check fuel addr ;;;
  emit (Print "Length (Dec): ") ;;;
  len <- readDecInput fuel ;;
  read_memory_dump addr len.

(** case '4', the check of the address: lines 274-292. *)
Definition write_memory_check (fuel : nat) (addr : Z) : M unit :=
  if negb (isValidSRAMAddress addr) then
    emit (Print "ERROR: Address 0x") ;;;
    printHex16 addr ;;;
    emit (Println " is not in writable SRAM!") ;;;
    if isIOAddress addr then
      emit (Println "Writing to I/O registers can be dangerous!") ;;;
      emit (Print "Force write? (y/n): ") ;;;
      confirm <- read_confirm fuel ;;
      if declined confirm then emit (Println "Cancelled.") ;;; brk else ret tt
    else
      emit (Println "Cannot write to Flash or invalid address.") ;;; brk
  else ret tt.

(** case '4', the store and its verification: lines 299-314. *)
Definition write_memory_verify (addr val : Z) : M unit :=
  emit (Print "Writing 0x") ;;;
  printHex8 val ;;;
  emit (Print " to 0x") ;;;
  printHex16 addr ;;;
  emit (Print "... ") ;;;
  store addr val ;;;
  readback <- load addr ;;
  if readback =? val then emit (Println "Verified.")
  else
    emit (Print "FAILED (Readback: 0x") ;;;
    printHex8 readback ;;;
    emit (Println ")").

(** case '4', from the value prompt's result on: lines 296-314. *)
Definition write_memory_store (addr val_read : Z) : M unit :=
  if val_read =? INPUT_TIMEOUT_SENTINEL then brk else
  write_memory_verify addr (uint8 val_read).

(** case '4': write data memory. *)
Definition loop_case_4 (fuel : nat) : M unit :=
  emit (Print "Address (Hex): ") ;;;
  addr <- readHexInput fuel ;;
  if addr =? INPUT_TIMEOUT_SENTINEL then brk else
  write_memory_check fuel addr ;;;
  emit (Print "Value (Hex): ") ;;;
  val_read <- readHexInput fuel ;;
  write_memory_store addr val_read.

(** case '5', from the address prompt's result on: lines 321-348. *)
Definition call_flash (fuel : nat) (word_addr : Z) : M unit :=
  if word_addr =? INPUT_TIMEOUT_SENTINEL then brk else
  if FLASH_END <? to_byte_address word_addr then
    emit (Println "ERROR: Address beyond Flash memory!") ;;; brk
  else
    emit (Println "WARNING: This will jump to the specified address.") ;;;
    emit (Println "Execution may not return if target doesn't ret.") ;;;
    emit (Print "Continue? (y/n): ") ;;;
    confirm <- read_confirm fuel ;;
    if declined confirm then emit (Println "Cancelled.") ;;; brk
    else
      emit (Println "Restoring registers and jumping...") ;;;
      emit Flush ;;;
      emit (Delay 100) ;;;
      restore_and_call word_addr ;;;
      emit (Println "Returned from call.").

(** case '5': call a flash address. *)
Definition loop_case_5 (fuel : nat) : M unit :=
  emit (Print "Flash WORD Address (Hex): ") ;;;
  word_addr <- readHexInput fuel ;;
  call_flash fuel word_addr.

(** case '6', from the length prompt's result on: lines 363-393.  In the
    guard of line 365, [FLASH_END + 1] is a sum of two [int] constants, taken
    in the 16 bits of an AVR [int]: 0x7FFF + 1 wraps to -32768, and the
    comparison with a [uint32_t] reads that as 0xFFFF8000. *)
Definition flash_dump (addr len : Z) : M unit :=
  if len =? INPUT_TIMEOUT_SENTINEL then brk else
  if uint32 (int16 (FLASH_END + 1)) <? uint32 (addr + len) then
    emit (Println "ERROR: Length exceeds Flash memory!") ;;; brk
  else
    emit (Println "--- FLASH DUMP ---") ;;;
    for_loop (Z.to_nat len) 0 (fun i =>
      let currentAddr := uint16 (addr + i) in
      (if (0 <? i) && (currentAddr mod 1024 =? 0) then
         emit (Println (NL ++ "[ --- 1K BLOCK BOUNDARY --- ]"))
       else ret tt) ;;;
      (if i mod 16 =? 0 then
         (if 0 <? i then emit (Println "") else ret tt) ;;;
         printHex16 currentAddr ;;;
         emit (Print ": ")
       else ret tt) ;;;
      (val <- pgm_read_byte currentAddr ;; printHex8 val) ;;;
      emit (Print " ") ;;;
      if i mod 64 =? 63 then emit (Delay 1) else ret tt) ;;;
    emit (Println (NL ++ "--- END DUMP ---")).

(** case '6': dump program memory. *)
Definition loop_case_6 (fuel : nat) : M unit :=
  emit (Print "Flash Byte Address (Hex): ") ;;;
  addr <- readHexInput fuel ;;
  if addr =? INPUT_TIMEOUT_SENTINEL then brk else
  if negb (isValidFlashAddress addr) then
    emit (Println "ERROR: Address beyond Flash memory!") ;;; brk
  else
    emit (Print "Length (Dec): ") ;;;
    len <- readDecInput fuel ;;
    flash_dump addr len.

End Monitor.

(** ** Concrete surroundings for running the sketch *)

(** A clock that advances [step] ms per reading, a serial line that delivers
    the [k]-th entry of [script] before poll [k], devices that keep what is
    stored, blank program memory whose every routine returns at once. *)
Definition script_env (step : Z) (script : list (list Z)) : Env :=
  mkEnv (fun k => Z.of_nat k * step)
        (fun k => default [] (script !! k))
        (fun _ _ v => v)
        (fun _ => 0)
        (fun _ => Some (fun rf => rf)).

Definition init_state : State :=
  mkState 0 0 [] (fun _ => 0) (replicate REG_FILE_SIZE 0) (replicate 32 0) 0.

(** A machine in use: r0..r31 hold 1..32, SREG holds 0x83 (I, Z and C set),
    and the snapshot buffer holds leftovers. *)
Definition busy_state : State :=
  mkState 0 0 [] (fun _ => 0) (replicate REG_FILE_SIZE 0xAA)
          (map Z.of_nat (seq 1 32)) 0x83.

(** The character codes of a string. *)
Definition codes (s : string) : list Z :=
  map (fun a => Z.of_nat (nat_of_ascii a)) (list_ascii_of_string s).


(** The surroundings of the examples: what the operator types, against a
    clock of 1 ms per reading. *)
Definition typed (script : list (list Z)) : Env := script_env 1 script.

(** * Predicates used in the statements *)

(** ** Computations that touch neither memory nor registers *)

Definition silent_event (e : Event) : bool :=
  match e with
  | Load _ _ | Store _ _ | PgmRead _ _ | Jump _ => false
  | _ => true
  end.

Definition silent (evs : list Event) : Prop :=
  Forall (fun e => silent_event e = true) evs.

Definition same_machine (s s' : State) : Prop :=
  mem s' = mem s /\ reg_file s' = reg_file s /\ cpu s' = cpu s /\ sreg s' = sreg s.

Definition quiet {A} (m : M A) : Prop :=
  forall s, same_machine s (final (m s)) /\ silent (events (m s)).

(** ** Properties of every event of a computation *)

Definition all_events {A} (P : Event -> Prop) (m : M A) : Prop :=
  forall s, Forall P (events (m s)).

(** [m] emits only [P]-events, and what it returns satisfies [Q]. *)
Definition yields {A} (P : Event -> Prop) (Q : A -> Prop) (m : M A) : Prop :=
  forall s, Forall P (events (m s)) /\ forall a, outcome (m s) = Done a -> Q a.

(** ** readInputLine keeps inside its buffer *)

(** The test of line 89. *)
Definition accepted (isHex : bool) (c : Z) : bool :=
  (isHex && isxdigit c) || (negb isHex && isdigit c).

(** A write into a line buffer of capacity [maxLen] is either an accepted
    digit below the last cell or the terminating null after at least one
    digit; every other event passes. *)
Definition buf_write_ok (maxLen : Z) (isHex : bool) (e : Event) : Prop :=
  match e with
  | BufWrite i c =>
      0 <= i < maxLen /\
      ((i < maxLen - 1 /\ accepted isHex c = true) \/ (0 < i /\ c = 0))
  | _ => True
  end.

(** The loop invariant on [pos]. *)
Definition pos_ok (maxLen pos : Z) : Prop :=
  0 <= pos /\ (pos = 0 \/ pos <= maxLen - 1).


(** ** Regions and decisions, read off the branches of [loop()] *)

Inductive Region : Type := RegionData | RegionIO | RegionOutOfRange.
Inductive Decision : Type := Allow | AllowWithConfirmation | Deny.
Inductive Operation : Type := OpRead | OpWrite.

(** The sketch has no function of this name: this is the three-way branch of
    case '4' (lines 274-291) on a data address, SRAM first, then I/O, then
    "Flash or invalid address".  The tests look at the address alone. *)
Definition classify (addr : Z) : Region :=
  if isValidSRAMAddress addr then RegionData
  else if isIOAddress addr then RegionIO
  else RegionOutOfRange.

(** What the address checks of case '3' (lines 224-239) and of case '4'
    (lines 274-292) decide: go on at once, go on after a y/Y answer, or
    [break].  [read_memory_check_decides] and [write_memory_check_decides]
    below relate it to the checks themselves. *)
Definition authorize (addr : Z) (op : Operation) : Decision :=
  match op with
  | OpRead =>
      if isValidSRAMAddress addr then Allow else AllowWithConfirmation
  | OpWrite =>
      if isValidSRAMAddress addr then Allow
      else if isIOAddress addr then AllowWithConfirmation
      else Deny
  end.

(** ** Reading traces *)

(** The data addresses loaded, in order. *)
Definition loads_of (evs : list Event) : list Z :=
  omap (fun e => match e with Load a _ => Some a | _ => None end) evs.

(** The values loaded, in order. *)
Definition loaded_values (evs : list Event) : list Z :=
  omap (fun e => match e with Load _ v => Some v | _ => None end) evs.

Definition is_store (e : Event) : bool :=
  match e with Store _ _ => true | _ => false end.


(** The answer to a y/n prompt as the trace shows it: the prompt, the byte
    read, its echo. *)
Definition answered (prompt : string) (c : Z) (evs : list Event) : Prop :=
  exists before rd after,
    evs = before ++ Print prompt :: SerialRead rd :: PrintlnChar c :: after /\
    Forall (fun e => is_store e = false) before.

Definition yes (c : Z) : Prop := c = CH_y \/ c = CH_Y.

(** [0, 1, ..., n-1] from [start]. *)
Fixpoint span (start : Z) (n : nat) : list Z :=
  match n with
  | O => []
  | S n' => start :: span (start + 1) n'
  end.

(** What [printHex8] and [printHex16] print. *)
Definition hex8_trace (val : Z) : list Event :=
  (if val <? 16 then [PrintChar 48] else []) ++ [PrintNum val 16].

Definition hex16_trace (val : Z) : list Event :=
  hex8_trace (uint8 (Z.shiftr val 8)) ++ hex8_trace (Z.land val 0xFF).

(** What an address holds after a store of [val], as [store] has it. *)
Definition kept_value (E : Env) (s : State) (addr val : Z) : Z :=
  if isValidSRAMAddress addr then val else env_device E addr (mem s addr) val.

(** What one turn of the dump loop of case '3' emits. *)
Definition read_memory_byte_trace (addr i : Z) (s : State) : list Event :=
  (if i mod 16 =? 0
   then Println "" :: hex16_trace (uint16 (addr + i)) ++ [Print ": "] else []) ++
  Load (uint16 (addr + i)) (uint8 (mem s (uint16 (addr + i)))) ::
  hex8_trace (uint8 (mem s (uint16 (addr + i)))) ++
  Print " " :: (if i mod 64 =? 63 then [Delay 1] else []).

(** Nothing is buffered on the serial line and nothing will arrive. *)
Definition line_dead (E : Env) (s : State) : Prop :=
  rx s = [] /\ forall k, (polls s <= k)%nat -> env_serial E k = [].

(** Two line buffers of the same length that agree below [pos]. *)
Definition agree_below (pos : Z) (b1 b2 : list Z) : Prop :=
  length b1 = length b2 /\ take (Z.to_nat pos) b1 = take (Z.to_nat pos) b2.

(** * The rest of the sketch: the menu, case '7' and [loop()] itself *)

(** What the linker and the running machine fix and case '7' prints: the
    addresses of [reg_file], [_etext], [__data_load_start], [loop], [setup],
    [__heap_start] and the local [v], the value of [__brkval], and the stack
    pointer [SP]. *)
Record Symbols : Type := mkSymbols {
  sym_reg_file : Z;
  sym_etext : Z;
  sym_data_load_start : Z;
  sym_loop : Z;
  sym_setup : Z;
  sym_SP : Z;
  sym_heap_start : Z;
  sym_brkval : Z;
  sym_v : Z
}.

Definition displayMenu : M unit :=
  emit (Println (NL ++ "--- AVR MONITOR ---")) ;;;
  emit (Println "1. Read Registers (Snapshot)") ;;;
  emit (Println "2. Modify Register (in Snapshot)") ;;;
  emit (Println "3. Read Memory (RAM)") ;;;
  emit (Println "4. Write Memory (RAM)") ;;;
  emit (Println "5. Call Flash Address (Word Addr)") ;;;
  emit (Println "6. Read Flash Memory (Dump)") ;;;
  emit (Println "7. Display Program Address Info") ;;;
  emit (Print "Choice> ").

(** case '7': display address information. *)
Definition loop_case_7 (L : Symbols) : M unit :=
  emit (Println (NL ++ "--- PROGRAM/MEMORY ADDRESS INFO ---")) ;;;
  emit (Print "SRAM Start:                   0x") ;;;
  printHex16 SRAM_START ;;;
  emit (Println "") ;;;
  emit (Print "SRAM End:                     0x") ;;;
  printHex16 SRAM_END ;;;
  emit (Println "") ;;;
  emit (Print "reg_file pointer:             0x") ;;;
  printHex16 (uint16 (sym_reg_file L)) ;;;
  emit (Println "") ;;;
  emit (Print ("Flash Start:                  0x0000" ++ NL)) ;;;
  emit (Print "Flash End:                    0x") ;;;
  printHex16 FLASH_END ;;;
  emit (Println "") ;;;
  emit (Print "Code End (_etext):            0x") ;;;
  printHex16 (uint16 (sym_etext L)) ;;;
  emit (Println "") ;;;
  emit (Print "Data Load Start in Flash:     0x") ;;;
  printHex16 (uint16 (sym_data_load_start L)) ;;;
  emit (Println "") ;;;
  emit (Print "loop() byte address:          0x") ;;;
  printHex16 (uint16 (sym_loop L)) ;;;
  emit (Print " (word: 0x") ;;;
  printHex16 (Z.shiftr (uint16 (sym_loop L)) 1) ;;;
  emit (Println ")") ;;;
  emit (Print "setup() byte address:         0x") ;;;
  printHex16 (uint16 (sym_setup L)) ;;;
  emit (Print " (word: 0x") ;;;
  printHex16 (Z.shiftr (uint16 (sym_setup L)) 1) ;;;
  emit (Println ")") ;;;
  let sp := uint16 (sym_SP L) in
  emit (Print "Current Stack Pointer:        0x") ;;;
  printHex16 sp ;;;
  emit (Println "") ;;;
  let free_mem :=
    int16 (int16 (sym_v L)
           - (if sym_brkval L =? 0 then int16 (sym_heap_start L)
              else int16 (sym_brkval L))) in
  emit (Print "Free Memory (approx):         ") ;;;
  emit (PrintNum free_mem 10) ;;;
  emit (Println " bytes").

(** A [switch] body: [break] leaves it, and the code after it goes on. *)
Definition switch_body (body : M unit) : M unit := fun s =>
  match body s with
  | (Break, s', e) => (Done tt, s', e)
  | r => r
  end.

Section Dispatch.

Variable E : Env.
Variable L : Symbols.

(** The wait for a command key: lines 143-150; [None] is the timeout. *)
Fixpoint menu_wait (fuel : nat) (menuStartTime : Z) : M (option Z) :=
  match fuel with
  | O => hang
  | S fuel' =>
      now <- millis E ;;
      if uint32 (now - menuStartTime) <? INPUT_TIMEOUT_MS then
        n <- Serial_available E ;;
        if negb (n =? 0) then
          r <- Serial_read ;;
          let choice := uint8 r in
          if (49 <=? choice) && (choice <=? 55) then ret (Some choice)
          else menu_wait fuel' menuStartTime
        else menu_wait fuel' menuStartTime
      else ret None
  end.

(** [while (Serial.available()) Serial.read();] *)
Fixpoint drain (fuel : nat) : M unit :=
  match fuel with
  | O => hang
  | S fuel' =>
      n <- Serial_available E ;;
      if negb (n =? 0) then Serial_read ;;; drain fuel' else ret tt
  end.

(** The [switch (choice)] of [loop()]. *)
Definition dispatch (fuel : nat) (choice : Z) : M unit :=
  switch_body
    (if choice =? 49 then loop_case_1
     else if choice =? 50 then loop_case_2 E fuel
     else if choice =? 51 then loop_case_3 E fuel
     else if choice =? 52 then loop_case_4 E fuel
     else if choice =? 53 then loop_case_5 E fuel
     else if choice =? 54 then loop_case_6 E fuel
     else if choice =? 55 then loop_case_7 L
     else ret tt).

Definition loop (fuel : nat) : M unit :=
  displayMenu ;;;
  menuStartTime <- millis E ;;
  chosen <- menu_wait fuel menuStartTime ;;
  match chosen with
  | None =>
      emit (Println (NL ++ "Timeout waiting for command. Refreshing menu..."))
  | Some choice =>
      emit (PrintlnChar choice) ;;;
      dispatch fuel choice ;;;
      drain fuel
  end.

End Dispatch.

(** * Reference functions for line entry *)

(** The line an operator has entered, as a list: what the bytes [cs] make of
    the line [line] up to the first line end that finds it non-empty, and
    the bytes left behind it.  A backspace drops the last character, an
    accepted digit is appended while fewer than [maxLen - 1] are held, any
    other byte changes nothing. *)
Fixpoint line_scan (maxLen : Z) (isHex : bool) (line : list Z) (cs : list Z)
    : option (list Z * list Z) :=
  match cs with
  | [] => None
  | r :: cs' =>
      let c := uint8 r in
      if (c =? CH_LF) || (c =? CH_CR) then
        match line with
        | [] => line_scan maxLen isHex line cs'
        | _ => Some (line, cs')
        end
      else if (c =? CH_BS) || (c =? CH_DEL) then
        line_scan maxLen isHex (removelast line) cs'
      else if (Z.of_nat (length line) <? maxLen - 1) && accepted isHex c then
        line_scan maxLen isHex (line ++ [c]) cs'
      else line_scan maxLen isHex line cs'
  end.

(** The number a string of digits denotes in [base]. *)
Definition digits_value (base : Z) (ds : list Z) : Z :=
  fold_left (fun acc c => acc * base + default 0 (digit_value base c)) ds 0.

(** Two successive readings of [millis()] are always less than [timeout_ms]
    apart. *)
Definition clock_steady (E : Env) (timeout_ms : Z) : Prop :=
  forall k, uint32 (uint32 (env_millis E (S k)) - uint32 (env_millis E k)) < timeout_ms.

(** No byte buffered now or arriving later satisfies [P]. *)
Definition never_receives (E : Env) (s : State) (P : Z -> bool) : Prop :=
  Forall (fun r => P (uint8 r) = false) (rx s) /\
  forall k, (polls s <= k)%nat -> Forall (fun r => P (uint8 r) = false) (env_serial E k).

Definition is_command_key (c : Z) : bool := (49 <=? c) && (c <=? 55).

Definition is_pgm_read (e : Event) : bool :=
  match e with PgmRead _ _ => true | _ => false end.

(** The program addresses read, in order. *)
Definition pgm_reads_of (evs : list Event) : list Z :=
  omap (fun e => match e with PgmRead a _ => Some a | _ => None end) evs.

(** The line being entered is the first [pos] cells of a buffer of capacity
    at least [maxLen]. *)
Definition holds_line (maxLen : Z) (buffer : list Z) (pos : Z) (line : list Z) : Prop :=
  pos = Z.of_nat (length line) /\ take (length line) buffer = line /\
  (line = [] \/ Z.of_nat (length line) <= maxLen - 1) /\
  maxLen <= Z.of_nat (length buffer).

(** The initial state with the bytes [q] already received. *)
Definition received (q : list Z) : State :=
  mkState 0 0 q (fun _ => 0) (replicate REG_FILE_SIZE 0) (replicate 32 0) 0.

(** What the clock shows [j] readings after the reading at index [t0], as
    [millis() - startTime] computes it. *)
Definition elapsed (E : Env) (t0 : nat) (j : nat) : Z :=
  uint32 (uint32 (env_millis E (S t0 + j)) - uint32 (env_millis E t0)).

(** Some byte reaches the receive buffer before every poll from now on. *)
Definition always_receives (E : Env) (s : State) : Prop :=
  forall k, (polls s <= k)%nat -> env_serial E k <> [].

Definition is_serial_read (e : Event) : bool :=
  match e with SerialRead _ => true | _ => false end.

Definition TIMEOUT_MENU : string :=
  (NL ++ "Timeout waiting for command. Refreshing menu...")%string.

Definition TIMEOUT_INPUT : string := (NL ++ "ERROR: Input timeout.")%string.

(** What [displayMenu] prints. *)
Definition menu_trace : list Event := events (displayMenu init_state).

(** Surroundings in which the byte [c] arrives before every poll, against a
    clock of [step] ms per reading. *)
Definition babbling (step c : Z) : Env :=
  mkEnv (fun k => Z.of_nat k * step) (fun _ => [c]) (fun _ _ v => v) (fun _ => 0)
        (fun _ => Some (fun rf => rf)).

(** What one turn of the dump loop of case '6' emits. *)
Definition flash_dump_byte_trace (E : Env) (addr i : Z) : list Event :=
  let currentAddr := uint16 (addr + i) in
  (if (0 <? i) && (currentAddr mod 1024 =? 0)
   then [Println (NL ++ "[ --- 1K BLOCK BOUNDARY --- ]")] else []) ++
  (if i mod 16 =? 0
   then (if 0 <? i then [Println ""] else []) ++ hex16_trace currentAddr ++ [Print ": "]
   else []) ++
  PgmRead currentAddr (uint8 (env_flash E currentAddr)) ::
  hex8_trace (uint8 (env_flash E currentAddr)) ++
  Print " " :: (if i mod 64 =? 63 then [Delay 1] else []).

(** [m] returns only values that satisfy [Q]. *)
Definition returns {A} (Q : A -> Prop) (m : M A) : Prop :=
  forall s a, outcome (m s) = Done a -> Q a.


(** Every event is console traffic or a read of program memory. *)
Definition flash_reads_only (evs : list Event) : Prop :=
  Forall (fun e => silent_event e = true \/ is_pgm_read e = true) evs.

(** * Facts *)

(** ** The monad *)

Lemma bind_run {A B} (m : M A) (f : A -> M B) (s : State) :
  bind m f s =
  match outcome (m s) with
  | Done a =>
      (outcome (f a (final (m s))), final (f a (final (m s))),
       events (m s) ++ events (f a (final (m s))))
  | Break => (Break, final (m s), events (m s))
  | Hang => (Hang, final (m s), events (m s))
  end.
Proof.
  unfold bind, outcome, final, events.
  destruct (m s) as [[[a| |] s1] e1]; simpl; try reflexivity.
  destruct (f a s1) as [[r s2] e2]; reflexivity.
Qed.

Lemma run_eta {A} (r : Outcome A * State * list Event) :
  r = (outcome r, final r, events r).
Proof. destruct r as [[o s] e]; reflexivity. Qed.

Lemma bind_ret {A B} (a : A) (f : A -> M B) (s : State) :
  bind (ret a) f s = f a s.
Proof. rewrite bind_run; simpl. symmetry; apply run_eta. Qed.

Lemma bind_emit {B} (e : Event) (k : M B) (s : State) :
  (emit e ;;; k) s = (outcome (k s), final (k s), e :: events (k s)).
Proof. rewrite bind_run; reflexivity. Qed.

Lemma bind_brk {A B} (f : A -> M B) (s : State) :
  bind brk f s = (Break, s, []).
Proof. reflexivity. Qed.

(** ** Computations that touch neither memory nor registers *)

Lemma same_machine_refl s : same_machine s s.
Proof. repeat split. Qed.

Lemma same_machine_trans s1 s2 s3 :
  same_machine s1 s2 -> same_machine s2 s3 -> same_machine s1 s3.
Proof.
  unfold same_machine; intros (?&?&?&?) (?&?&?&?); repeat split; congruence.
Qed.

Lemma quiet_ret {A} (a : A) : quiet (ret a).
Proof. intros s; split; [apply same_machine_refl | constructor]. Qed.

Lemma quiet_brk {A} : quiet (@brk A).
Proof. intros s; split; [apply same_machine_refl | constructor]. Qed.

Lemma quiet_hang {A} : quiet (@hang A).
Proof. intros s; split; [apply same_machine_refl | constructor]. Qed.

Lemma quiet_emit e : silent_event e = true -> quiet (emit e).
Proof.
  intros He s; split; [apply same_machine_refl | repeat constructor; exact He].
Qed.

Lemma quiet_bind {A B} (m : M A) (f : A -> M B) :
  quiet m -> (forall a, quiet (f a)) -> quiet (bind m f).
Proof.
  intros Hm Hf s. rewrite bind_run.
  destruct (Hm s) as [Hs He].
  destruct (outcome (m s)) as [a| |]; simpl; [|split; assumption..].
  destruct (Hf a (final (m s))) as [Hs' He'].
  split; [eapply same_machine_trans; eassumption | apply Forall_app; split; assumption].
Qed.

Lemma quiet_for_loop n i body : (forall j, quiet (body j)) -> quiet (for_loop n i body).
Proof.
  intros Hb; revert i; induction n as [|n IH]; intros i; simpl.
  - apply quiet_ret.
  - apply quiet_bind; [apply Hb | intros _; apply IH].
Qed.

Ltac quiet_step :=
  match goal with
  | |- quiet (bind _ _) => apply quiet_bind; [| intros ?]
  | |- quiet (ret _) => apply quiet_ret
  | |- quiet brk => apply quiet_brk
  | |- quiet hang => apply quiet_hang
  | |- quiet (emit _) => apply quiet_emit; reflexivity
  | |- quiet (if ?b then _ else _) => destruct b
  | |- quiet (let _ := _ in _) => cbv zeta
  | H : quiet ?m |- quiet ?m => exact H
  | H : forall x, quiet (@?m x) |- quiet _ => apply H
  end.

Ltac quiet_auto := repeat quiet_step.

Lemma quiet_printHex8 val : quiet (printHex8 val).
Proof. unfold printHex8; quiet_auto. Qed.

Lemma quiet_printHex16 val : quiet (printHex16 val).
Proof. unfold printHex16; quiet_auto; apply quiet_printHex8. Qed.

Section QuietInput.

Variable E : Env.

Lemma quiet_millis : quiet (millis E).
Proof. intros s; split; [repeat split | constructor]. Qed.

Lemma quiet_Serial_available : quiet (Serial_available E).
Proof. intros s; split; [repeat split | constructor]. Qed.

Lemma quiet_Serial_read : quiet Serial_read.
Proof.
  intros s; unfold Serial_read; destruct (rx s); simpl;
    (split; [repeat split | repeat constructor]).
Qed.

Lemma quiet_wait_available fuel : quiet (wait_available E fuel).
Proof.
  induction fuel as [|fuel IH]; simpl.
  - apply quiet_hang.
  - apply quiet_bind; [apply quiet_Serial_available | intros n].
    destruct (n =? 0); [exact IH | apply quiet_ret].
Qed.

Lemma quiet_read_confirm fuel : quiet (read_confirm E fuel).
Proof.
  unfold read_confirm.
  apply quiet_bind; [apply quiet_wait_available | intros _].
  apply quiet_bind; [apply quiet_Serial_read | intros r].
  quiet_auto.
Qed.

Lemma quiet_readInputLine_char maxLen isHex buffer pos c :
  quiet (readInputLine_char maxLen isHex buffer pos c).
Proof. unfold readInputLine_char; quiet_auto. Qed.

Lemma quiet_readInputLine_loop fuel maxLen isHex timeout_ms :
  forall buffer pos startTime,
    quiet (readInputLine_loop E fuel maxLen isHex timeout_ms buffer pos startTime).
Proof.
  induction fuel as [|fuel IH]; intros buffer pos startTime; simpl.
  - apply quiet_hang.
  - apply quiet_bind; [apply quiet_millis | intros now].
    destruct (uint32 (now - startTime) <? timeout_ms); [| quiet_auto].
    apply quiet_bind; [apply quiet_Serial_available | intros n].
    destruct (negb (n =? 0)); [| apply IH].
    apply quiet_bind; [apply quiet_Serial_read | intros r].
    cbv zeta.
    destruct ((uint8 r =? CH_LF) || (uint8 r =? CH_CR)).
    + destruct (0 <? pos); [quiet_auto |].
      apply quiet_bind; [apply quiet_millis | intros st; apply IH].
    + apply quiet_bind; [apply quiet_readInputLine_char | intros bp].
      apply quiet_bind; [apply quiet_millis | intros st; apply IH].
Qed.

Lemma quiet_readInputLine fuel buffer maxLen isHex timeout_ms :
  quiet (readInputLine E fuel buffer maxLen isHex timeout_ms).
Proof.
  unfold readInputLine.
  apply quiet_bind; [apply quiet_millis | intros st; apply quiet_readInputLine_loop].
Qed.

Lemma quiet_readHexInput fuel : quiet (readHexInput E fuel).
Proof. apply quiet_readInputLine. Qed.

Lemma quiet_readDecInput fuel : quiet (readDecInput E fuel).
Proof. apply quiet_readInputLine. Qed.

End QuietInput.

(** ** Properties of every event of a computation *)

Lemma all_events_bind {A B} P (Q : A -> Prop) (m : M A) (f : A -> M B) :
  yields P Q m -> (forall a, Q a -> all_events P (f a)) -> all_events P (bind m f).
Proof.
  intros Hm Hf s. rewrite bind_run.
  destruct (Hm s) as [He Hq].
  destruct (outcome (m s)) as [a| |]; simpl; try exact He.
  apply Forall_app; split; [exact He | apply Hf, Hq; reflexivity].
Qed.

Lemma yields_weaken {A} P (Q : A -> Prop) (m : M A) :
  all_events P m -> yields P (fun _ => True) m.
Proof. intros H s; split; [apply H | trivial]. Qed.

Lemma all_events_bind' {A B} P (m : M A) (f : A -> M B) :
  all_events P m -> (forall a, all_events P (f a)) -> all_events P (bind m f).
Proof.
  intros Hm Hf. apply (all_events_bind P (fun _ => True)).
  - intros s; split; [apply Hm | trivial].
  - intros a _; apply Hf.
Qed.

Lemma all_events_nil {A} P (m : M A) :
  (forall s, events (m s) = []) -> all_events P m.
Proof. intros H s; rewrite H; constructor. Qed.


(** ** readInputLine keeps inside its buffer *)

Lemma uint8_le x : 0 <= x -> 0 <= uint8 x <= x.
Proof.
  intros Hx; unfold uint8; split.
  - apply Z.mod_pos_bound; lia.
  - apply Z.mod_le; lia.
Qed.

Lemma readInputLine_char_ok maxLen isHex buffer pos c :
  pos_ok maxLen pos ->
  yields (buf_write_ok maxLen isHex) (fun bp => pos_ok maxLen (snd bp))
         (readInputLine_char maxLen isHex buffer pos c).
Proof.
  intros [Hp0 Hp] s. unfold readInputLine_char.
  destruct ((c =? CH_BS) || (c =? CH_DEL)).
  - destruct (0 <? pos) eqn:Hpos.
    + rewrite bind_emit; simpl. split; [repeat constructor |].
      intros a [= <-]; simpl.
      apply Z.ltb_lt in Hpos.
      pose proof (uint8_le (pos - 1)). unfold pos_ok. lia.
    + simpl; split; [constructor |]. intros a [= <-]; simpl. split; assumption.
  - destruct (pos <? maxLen - 1) eqn:Hlt.
    + apply Z.ltb_lt in Hlt.
      fold (accepted isHex c). destruct (accepted isHex c) eqn:Hacc.
      * rewrite !bind_emit; simpl. split.
        -- constructor; [| repeat constructor].
           simpl; split; [lia | left; split; [lia | exact Hacc]].
        -- intros a [= <-]; simpl.
           pose proof (uint8_le (pos + 1)). unfold pos_ok. lia.
      * simpl; split; [constructor |]. intros a [= <-]; simpl. split; assumption.
    + simpl; split; [constructor |]. intros a [= <-]; simpl. split; assumption.
Qed.

Section LineBuffer.

Variable E : Env.

Lemma millis_events s : events (millis E s) = [].
Proof. reflexivity. Qed.

Lemma Serial_available_events s : events (Serial_available E s) = [].
Proof. reflexivity. Qed.

Lemma Serial_read_ok maxLen isHex : all_events (buf_write_ok maxLen isHex) Serial_read.
Proof.
  intros s; unfold Serial_read; destruct (rx s); repeat constructor.
Qed.

Lemma readInputLine_loop_ok fuel maxLen isHex timeout_ms :
  forall buffer pos startTime,
    pos_ok maxLen pos ->
    all_events (buf_write_ok maxLen isHex)
      (readInputLine_loop E fuel maxLen isHex timeout_ms buffer pos startTime).
Proof.
  induction fuel as [|fuel IH]; intros buffer pos startTime Hpos; simpl.
  - intros s; constructor.
  - apply all_events_bind'; [apply all_events_nil, millis_events | intros now].
    destruct (uint32 (now - startTime) <? timeout_ms).
    2:{ intros s; rewrite bind_emit; repeat constructor. }
    apply all_events_bind'; [apply all_events_nil, Serial_available_events | intros n].
    destruct (negb (n =? 0)); [| apply IH; exact Hpos].
    apply all_events_bind'; [apply Serial_read_ok | intros r].
    cbv zeta.
    destruct ((uint8 r =? CH_LF) || (uint8 r =? CH_CR)).
    + destruct (0 <? pos) eqn:Hp.
      * apply Z.ltb_lt in Hp. destruct Hpos as [_ Hle].
        intros s; rewrite !bind_emit; simpl.
        constructor; [| repeat constructor].
        simpl; split; [lia | right; split; [lia | reflexivity]].
      * apply all_events_bind'; [apply all_events_nil, millis_events | intros st].
        apply IH; exact Hpos.
    + eapply all_events_bind; [apply readInputLine_char_ok; exact Hpos |].
      intros bp Hbp. simpl in Hbp.
      apply all_events_bind'; [apply all_events_nil, millis_events | intros st].
      apply IH; exact Hbp.
Qed.

Lemma readInputLine_ok fuel buffer maxLen isHex timeout_ms :
  all_events (buf_write_ok maxLen isHex)
    (readInputLine E fuel buffer maxLen isHex timeout_ms).
Proof.
  unfold readInputLine.
  apply all_events_bind'; [apply all_events_nil, millis_events | intros st].
  apply readInputLine_loop_ok. split; [lia | left; reflexivity].
Qed.

End LineBuffer.

(** ** Projections of a sequenced run *)

Lemma outcome_bind {A B} (m : M A) (f : A -> M B) s :
  outcome (bind m f s) =
  match outcome (m s) with
  | Done a => outcome (f a (final (m s)))
  | Break => Break
  | Hang => Hang
  end.
Proof. rewrite bind_run; destruct (outcome (m s)); reflexivity. Qed.

Lemma final_bind {A B} (m : M A) (f : A -> M B) s :
  final (bind m f s) =
  match outcome (m s) with
  | Done a => final (f a (final (m s)))
  | _ => final (m s)
  end.
Proof. rewrite bind_run; destruct (outcome (m s)); reflexivity. Qed.

Lemma events_bind {A B} (m : M A) (f : A -> M B) s :
  events (bind m f s) =
  match outcome (m s) with
  | Done a => events (m s) ++ events (f a (final (m s)))
  | _ => events (m s)
  end.
Proof. rewrite bind_run; destruct (outcome (m s)); reflexivity. Qed.

Lemma outcome_mk {A} (o : Outcome A) s e : outcome (o, s, e) = o.
Proof. reflexivity. Qed.

Lemma final_mk {A} (o : Outcome A) s e : final (o, s, e) = s.
Proof. reflexivity. Qed.

Lemma events_mk {A} (o : Outcome A) s e : events (o, s, e) = e.
Proof. reflexivity. Qed.

Ltac run_proj := rewrite ?outcome_mk, ?final_mk, ?events_mk.

Lemma quiet_final {A} (m : M A) s : quiet m -> same_machine s (final (m s)).
Proof. intros H; apply H. Qed.

(** ** The line buffer (claim C10) *)

Lemma accepted_hex c :
  accepted true c = true <-> 48 <= c <= 57 \/ 97 <= c <= 102 \/ 65 <= c <= 70.
Proof. unfold accepted, isxdigit, isdigit; simpl. lia. Qed.

Lemma accepted_dec c : accepted false c = true <-> 48 <= c <= 57.
Proof. unfold accepted, isdigit; simpl. lia. Qed.

(** C10: a call of readInputLine on a buffer of capacity maxLen writes digits
    only at indices below maxLen-1 and the terminating null at an index of at
    most maxLen-1, so never outside the buffer; what it writes are hexadecimal
    digits in hex mode and decimal digits in decimal mode, and any other
    character that is not a control character (line end, backspace, DEL)
    leaves buffer, position and output as they were. *)
Theorem readInputLine_stays_in_buffer (E : Env) (fuel : nat) (buffer : list Z)
    (maxLen : Z) (isHex : bool) (timeout_ms : Z) (s : State) :
  Forall (buf_write_ok maxLen isHex)
         (events (readInputLine E fuel buffer maxLen isHex timeout_ms s))
  /\ (forall c, accepted true c = true <->
                48 <= c <= 57 \/ 97 <= c <= 102 \/ 65 <= c <= 70)
  /\ (forall c, accepted false c = true <-> 48 <= c <= 57)
  /\ (forall pos c s',
        (c =? CH_BS) || (c =? CH_DEL) = false ->
        accepted isHex c = false ->
        readInputLine_char maxLen isHex buffer pos c s' = (Done (buffer, pos), s', [])).
Proof.
  split; [apply readInputLine_ok |].
  split; [exact accepted_hex |].
  split; [exact accepted_dec |].
  intros pos c s' Hctl Hacc. unfold readInputLine_char.
  rewrite Hctl. fold (accepted isHex c). rewrite Hacc.
  destruct (pos <? maxLen - 1); reflexivity.
Qed.

(** ** Modify Register (claim C9) *)

Lemma modify_register_store_run idx val_read s :
  modify_register_store idx val_read s =
  if val_read =? INPUT_TIMEOUT_SENTINEL then (Break, s, [])
  else (Done tt,
        set_reg_file (<[Z.to_nat idx := uint8 val_read]> (reg_file s)) s,
        events (modify_register_store idx val_read s)).
Proof.
  unfold modify_register_store.
  destruct (val_read =? INPUT_TIMEOUT_SENTINEL); [reflexivity |].
  cbv zeta. unfold printHex8.
  destruct (uint8 val_read <? 16); reflexivity.
Qed.

Lemma modify_register_cases (E : Env) fuel idx s :
  let r := modify_register E fuel idx s in
  reg_file (final r) = reg_file s \/
  (idx <= 31 /\ exists val_read,
      outcome r = Done tt /\
      reg_file (final r) = <[Z.to_nat idx := uint8 val_read]> (reg_file s)).
Proof.
  cbv zeta. unfold modify_register.
  destruct (idx =? INPUT_TIMEOUT_SENTINEL); [left; reflexivity |].
  destruct (31 <? idx) eqn:Hidx; [left; reflexivity |].
  apply Z.ltb_ge in Hidx.
  rewrite bind_emit. unfold final at 1 3, outcome at 1; simpl.
  rewrite final_bind, outcome_bind.
  destruct (quiet_readHexInput E fuel s) as [(_ & Hreg & _) _].
  destruct (outcome (readHexInput E fuel s)) as [val_read| |];
    [| left; exact Hreg ..].
  rewrite modify_register_store_run.
  destruct (val_read =? INPUT_TIMEOUT_SENTINEL); simpl; [left; exact Hreg |].
  right; split; [exact Hidx |]. exists val_read; split; [reflexivity |].
  rewrite Hreg; reflexivity.
Qed.

(** C9: Modify Register with an index above 31 leaves the whole snapshot
    buffer as it was; with any index, every slot other than that index keeps
    its value, so that for an index in 0..31 the status slot 32 is kept, and
    the buffer keeps its length; and for an index in 0..31, once the value
    prompt has returned a value, slot idx holds that value's low byte and the
    buffer is otherwise as before. *)
Theorem modify_register_frame (E : Env) (fuel : nat) (idx : Z) (s : State) :
  let r := modify_register E fuel idx s in
  (31 < idx -> reg_file (final r) = reg_file s)
  /\ (forall j : nat, j <> Z.to_nat idx -> reg_file (final r) !! j = reg_file s !! j)
  /\ (0 <= idx <= 31 ->
        reg_file (final r) !! SREG_BUFFER_INDEX = reg_file s !! SREG_BUFFER_INDEX)
  /\ length (reg_file (final r)) = length (reg_file s)
  /\ (forall val_read,
        0 <= idx <= 31 ->
        outcome (readHexInput E fuel s) = Done val_read ->
        val_read <> INPUT_TIMEOUT_SENTINEL ->
        outcome r = Done tt /\
        reg_file (final r) = <[Z.to_nat idx := uint8 val_read]> (reg_file s) /\
        ((Z.to_nat idx < length (reg_file s))%nat ->
         reg_file (final r) !! Z.to_nat idx = Some (uint8 val_read))).
Proof.
  cbv zeta.
  pose proof (modify_register_cases E fuel idx s) as Hc; cbv zeta in Hc.
  assert (Hframe : forall j : nat, j <> Z.to_nat idx ->
            reg_file (final (modify_register E fuel idx s)) !! j = reg_file s !! j).
  { intros j Hj. destruct Hc as [-> | (_ & v & _ & ->)]; [reflexivity |].
    apply list_lookup_insert_ne; congruence. }
  split.
  { intros Hgt. destruct Hc as [Hc | (Hle & _)]; [exact Hc | lia]. }
  split; [exact Hframe |].
  split.
  { intros Hidx. apply Hframe. unfold SREG_BUFFER_INDEX. lia. }
  split.
  { destruct Hc as [-> | (_ & v & _ & ->)]; [reflexivity | apply length_insert]. }
  intros val_read Hidx Hread Hval.
  assert (Hrun : outcome (modify_register E fuel idx s) = Done tt /\
                 reg_file (final (modify_register E fuel idx s)) =
                   <[Z.to_nat idx := uint8 val_read]> (reg_file s)).
  { unfold modify_register.
    destruct (Z.eqb_spec idx INPUT_TIMEOUT_SENTINEL) as [Hs | _];
      [unfold INPUT_TIMEOUT_SENTINEL in Hs; lia |].
    destruct (Z.ltb_spec 31 idx) as [? | _]; [lia |].
    rewrite bind_emit. run_proj. rewrite outcome_bind, final_bind, Hread.
    rewrite modify_register_store_run.
    destruct (Z.eqb_spec val_read INPUT_TIMEOUT_SENTINEL) as [? | _]; [contradiction |].
    run_proj. split; [reflexivity |].
    destruct (quiet_readHexInput E fuel s) as [(_ & Hreg & _) _].
    cbn [reg_file set_reg_file]. rewrite Hreg. reflexivity. }
  destruct Hrun as [Ho Hreg].
  split; [exact Ho |]. split; [exact Hreg |].
  intros Hlen. rewrite Hreg. apply list_lookup_insert_eq; exact Hlen.
Qed.

(** ** Straight-line steps *)

(** A step that returns [a], leaves the state alone and emits [e]. *)
Lemma bind_pure {A B} (m : M A) (f : A -> M B) s a e :
  m s = (Done a, s, e) ->
  bind m f s = (outcome (f a s), final (f a s), e ++ events (f a s)).
Proof. intros H. rewrite bind_run, H. reflexivity. Qed.

Lemma printHex8_run val s : printHex8 val s = (Done tt, s, hex8_trace val).
Proof. unfold printHex8, hex8_trace. destruct (val <? 16); reflexivity. Qed.

Lemma printHex16_run val s : printHex16 val s = (Done tt, s, hex16_trace val).
Proof.
  unfold printHex16, hex16_trace.
  rewrite (bind_pure _ _ _ _ _ (printHex8_run _ s)), printHex8_run. reflexivity.
Qed.

Lemma silent_hex8 val : silent (hex8_trace val).
Proof. unfold hex8_trace; destruct (val <? 16); repeat constructor. Qed.

Lemma silent_hex16 val : silent (hex16_trace val).
Proof. apply Forall_app; split; apply silent_hex8. Qed.

Lemma silent_no_store evs : silent evs -> Forall (fun e => is_store e = false) evs.
Proof.
  intros Hs. eapply Forall_impl; [exact Hs |].
  intros [] H; try reflexivity; discriminate H.
Qed.



Lemma silent_loads evs : silent evs -> loads_of evs = [] /\ loaded_values evs = [].
Proof.
  induction 1 as [|e evs He _ [IH1 IH2]]; [split; reflexivity |].
  destruct e; try discriminate He;
    unfold loads_of, loaded_values in *; simpl; split; assumption.
Qed.

Lemma loads_of_app e1 e2 : loads_of (e1 ++ e2) = loads_of e1 ++ loads_of e2.
Proof. apply omap_app. Qed.

Lemma loaded_values_app e1 e2 :
  loaded_values (e1 ++ e2) = loaded_values e1 ++ loaded_values e2.
Proof. apply omap_app. Qed.

(** ** Write with read-back (claim C7) *)

Lemma bind_store {B} (E : Env) addr val (k : M B) s :
  (store E addr val ;;; k) s =
  (outcome (k (set_mem (fun x => if x =? addr then kept_value E s addr val else mem s x) s)),
   final (k (set_mem (fun x => if x =? addr then kept_value E s addr val else mem s x) s)),
   Store addr val ::
   events (k (set_mem (fun x => if x =? addr then kept_value E s addr val else mem s x) s))).
Proof. rewrite bind_run; reflexivity. Qed.

Lemma bind_load {B} addr (f : Z -> M B) s :
  bind (load addr) f s =
  (outcome (f (uint8 (mem s addr)) s), final (f (uint8 (mem s addr)) s),
   Load addr (uint8 (mem s addr)) :: events (f (uint8 (mem s addr)) s)).
Proof. rewrite bind_run; reflexivity. Qed.

Ltac run_done := unfold outcome, final, events; cbn [fst snd].

Lemma write_memory_verify_run (E : Env) addr val s :
  write_memory_verify E addr val s =
  (Done tt,
   set_mem (fun x => if x =? addr then kept_value E s addr val else mem s x) s,
   Print "Writing 0x" :: hex8_trace val ++
   Print " to 0x" :: hex16_trace addr ++
   [Print "... "; Store addr val; Load addr (uint8 (kept_value E s addr val))] ++
   (if uint8 (kept_value E s addr val) =? val then [Println "Verified."]
    else Print "FAILED (Readback: 0x" ::
         hex8_trace (uint8 (kept_value E s addr val)) ++ [Println ")"])).
Proof.
  unfold write_memory_verify.
  rewrite bind_emit, (bind_pure _ _ _ _ _ (printHex8_run _ _)).
  rewrite bind_emit, (bind_pure _ _ _ _ _ (printHex16_run _ _)).
  rewrite bind_emit, bind_store, bind_load.
  cbn [mem set_mem]. rewrite Z.eqb_refl.
  destruct (uint8 (kept_value E s addr val) =? val).
  - run_done. reflexivity.
  - rewrite bind_emit, (bind_pure _ _ _ _ _ (printHex8_run _ _)).
    run_done. reflexivity.
Qed.

(** ** The memory dump (claim C2) *)

Lemma read_memory_byte_run addr i s :
  read_memory_byte addr i s = (Done tt, s, read_memory_byte_trace addr i s).
Proof.
  unfold read_memory_byte, read_memory_byte_trace.
  assert (Hhead :
    (if i mod 16 =? 0
     then emit (Println "") ;;; printHex16 (uint16 (addr + i)) ;;; emit (Print ": ")
     else ret tt) s =
    (Done tt, s,
     if i mod 16 =? 0
     then Println "" :: hex16_trace (uint16 (addr + i)) ++ [Print ": "] else [])).
  { destruct (i mod 16 =? 0); [| reflexivity].
    rewrite bind_emit, (bind_pure _ _ _ _ _ (printHex16_run _ _)). reflexivity. }
  rewrite (bind_pure _ _ _ _ _ Hhead).
  assert (Hload :
    (v <- load (uint16 (addr + i)) ;; printHex8 v) s =
    (Done tt, s,
     Load (uint16 (addr + i)) (uint8 (mem s (uint16 (addr + i)))) ::
     hex8_trace (uint8 (mem s (uint16 (addr + i)))))).
  { rewrite bind_load, printHex8_run. reflexivity. }
  rewrite (bind_pure _ _ _ _ _ Hload), bind_emit.
  destruct (i mod 64 =? 63); reflexivity.
Qed.

Lemma read_memory_byte_trace_loads addr i s :
  loads_of (read_memory_byte_trace addr i s) = [uint16 (addr + i)] /\
  loaded_values (read_memory_byte_trace addr i s) = [uint8 (mem s (uint16 (addr + i)))] /\
  Forall (fun e => is_store e = false) (read_memory_byte_trace addr i s).
Proof.
  unfold read_memory_byte_trace.
  set (head := if i mod 16 =? 0
               then Println "" :: hex16_trace (uint16 (addr + i)) ++ [Print ": "] else []).
  set (tail := hex8_trace (uint8 (mem s (uint16 (addr + i)))) ++
               Print " " :: (if i mod 64 =? 63 then [Delay 1] else [])).
  assert (Hq1 : silent head).
  { subst head. destruct (i mod 16 =? 0); [| constructor].
    constructor; [reflexivity |].
    apply Forall_app; split; [apply silent_hex16 | repeat constructor]. }
  assert (Hq2 : silent tail).
  { subst tail. apply Forall_app; split; [apply silent_hex8 |].
    destruct (i mod 64 =? 63); repeat constructor. }
  destruct (silent_loads _ Hq1) as [Hl1 Hv1].
  destruct (silent_loads _ Hq2) as [Hl2 Hv2].
  rewrite loads_of_app, loaded_values_app, Hl1, Hv1.
  change (Load (uint16 (addr + i)) (uint8 (mem s (uint16 (addr + i)))) :: tail)
    with ([Load (uint16 (addr + i)) (uint8 (mem s (uint16 (addr + i))))] ++ tail).
  rewrite loads_of_app, loaded_values_app, Hl2, Hv2.
  split; [reflexivity |]. split; [reflexivity |].
  apply Forall_app; split; [apply silent_no_store, Hq1 |].
  constructor; [reflexivity | apply silent_no_store, Hq2].
Qed.

Lemma read_memory_loop n addr : forall i s,
  outcome (for_loop n i (read_memory_byte addr) s) = Done tt /\
  final (for_loop n i (read_memory_byte addr) s) = s /\
  loads_of (events (for_loop n i (read_memory_byte addr) s)) =
    map (fun j => uint16 (addr + j)) (span i n) /\
  loaded_values (events (for_loop n i (read_memory_byte addr) s)) =
    map (fun j => uint8 (mem s (uint16 (addr + j)))) (span i n) /\
  Forall (fun e => is_store e = false) (events (for_loop n i (read_memory_byte addr) s)).
Proof.
  induction n as [|n IH]; intros i s; simpl.
  - repeat split; constructor.
  - destruct (IH (i + 1) s) as (Ho & Hf & Hl & Hv & Hs).
    destruct (read_memory_byte_trace_loads addr i s) as (Hbl & Hbv & Hbs).
    rewrite outcome_bind, final_bind, events_bind.
    rewrite (read_memory_byte_run addr i s).
    run_proj.
    split; [exact Ho |]. split; [exact Hf |].
    rewrite loads_of_app, loaded_values_app, Hbl, Hbv, Hl, Hv.
    split; [reflexivity |]. split; [reflexivity |].
    apply Forall_app; split; assumption.
Qed.

Lemma span_shift addr n : forall i,
  0 <= addr + i -> addr + i + Z.of_nat n <= 65536 ->
  map (fun j => uint16 (addr + j)) (span i n) = span (addr + i) n.
Proof.
  induction n as [|n IH]; intros i Hlo Hhi; simpl; [reflexivity |].
  rewrite IH by lia. f_equal.
  - unfold uint16. apply Z.mod_small. lia.
  - f_equal. lia.
Qed.

Lemma span_length start n : length (span start n) = n.
Proof. revert start; induction n; intros; simpl; congruence. Qed.

Lemma span_bounds n : forall start x, In x (span start n) -> start <= x < start + Z.of_nat n.
Proof.
  induction n as [|n IH]; intros start x; simpl; [tauto |].
  intros [<- | H]; [lia |]. apply IH in H. lia.
Qed.

(** ** The yes/no prompts *)

Lemma declined_iff c : declined c = false <-> yes c.
Proof.
  unfold declined, yes.
  destruct (Z.eqb_spec c CH_y), (Z.eqb_spec c CH_Y); simpl; intuition congruence.
Qed.

Lemma declined_not_yes c : declined c = true -> ~ yes c.
Proof. intros H Hy. apply declined_iff in Hy. congruence. Qed.

Lemma answered_eq prompt c l1 l2 : answered prompt c l1 -> l1 = l2 -> answered prompt c l2.
Proof. intros H <-; exact H. Qed.

Section Prompts.

Variable E : Env.

Lemma wait_available_events fuel : forall s, events (wait_available E fuel s) = [].
Proof.
  induction fuel as [|fuel IH]; intros s; simpl; [reflexivity |].
  rewrite events_bind. simpl.
  destruct (Z.of_nat (length (rx s ++ env_serial E (polls s))) =? 0);
    [apply IH | reflexivity].
Qed.

(** A prompt is either still waiting when the fuel is gone, or it has read
    one byte and echoed it. *)
Lemma read_confirm_shape fuel s :
  (outcome (read_confirm E fuel s) = Hang /\ events (read_confirm E fuel s) = []) \/
  (exists rd, outcome (read_confirm E fuel s) = Done (uint8 rd) /\
              events (read_confirm E fuel s) = [SerialRead rd; PrintlnChar (uint8 rd)]).
Proof.
  unfold read_confirm.
  rewrite outcome_bind, events_bind, wait_available_events.
  destruct (outcome (wait_available E fuel s)) as [[]| |] eqn:Hw.
  - right. set (s1 := final (wait_available E fuel s)).
    unfold Serial_read, bind. destruct (rx s1) as [|c q].
    + exists (-1). split; reflexivity.
    + exists c. split; reflexivity.
  - exfalso. clear -Hw. revert s Hw.
    induction fuel as [|fuel IH]; intros s; simpl; [discriminate |].
    rewrite outcome_bind; simpl.
    destruct (Z.of_nat (length (rx s ++ env_serial E (polls s))) =? 0);
      [apply IH | discriminate].
  - left. split; reflexivity.
Qed.

(** The tail of a check that asks: the prompt has just been printed. *)
Lemma ask_shape fuel prompt (before : list Event) s :
  Forall (fun e => is_store e = false) before ->
  let r := (confirm <- read_confirm E fuel ;;
            if declined confirm then emit (Println "Cancelled.") ;;; brk else ret tt) s in
  outcome r = Hang \/
  exists c, answered prompt c (before ++ Print prompt :: events r) /\
            ((yes c /\ outcome r = Done tt) \/ (~ yes c /\ outcome r = Break)).
Proof.
  intros Hb. cbv zeta. rewrite outcome_bind, events_bind.
  destruct (read_confirm_shape fuel s) as [[Ho He] | (rd & Ho & He)];
    rewrite Ho, He; [left; reflexivity | right].
  exists (uint8 rd).
  destruct (declined (uint8 rd)) eqn:Hd.
  - split.
    + exists before, rd, [Println "Cancelled."]. split; [reflexivity | exact Hb].
    + right. split; [apply declined_not_yes, Hd | reflexivity].
  - split.
    + exists before, rd, []. split; [reflexivity | exact Hb].
    + left. split; [apply declined_iff, Hd | reflexivity].
Qed.

Lemma quiet_read_memory_check fuel addr : quiet (read_memory_check E fuel addr).
Proof.
  unfold read_memory_check.
  destruct (negb (isValidSRAMAddress addr)); [| apply quiet_ret].
  apply quiet_bind; [quiet_auto | intros _].
  apply quiet_bind; [apply quiet_printHex16 | intros _].
  apply quiet_bind; [quiet_auto | intros _].
  apply quiet_bind; [quiet_auto | intros _].
  apply quiet_bind; [quiet_auto | intros _].
  apply quiet_bind; [apply quiet_read_confirm | intros c].
  quiet_auto.
Qed.

Lemma quiet_write_memory_check fuel addr : quiet (write_memory_check E fuel addr).
Proof.
  unfold write_memory_check.
  destruct (negb (isValidSRAMAddress addr)); [| apply quiet_ret].
  apply quiet_bind; [quiet_auto | intros _].
  apply quiet_bind; [apply quiet_printHex16 | intros _].
  apply quiet_bind; [quiet_auto | intros _].
  destruct (isIOAddress addr); [| quiet_auto].
  apply quiet_bind; [quiet_auto | intros _].
  apply quiet_bind; [quiet_auto | intros _].
  apply quiet_bind; [apply quiet_read_confirm | intros c].
  quiet_auto.
Qed.

(** What the check of case '3' does, by the decision for the address. *)
Lemma read_memory_check_decides fuel addr s :
  let r := read_memory_check E fuel addr s in
  match authorize addr OpRead with
  | Allow => r = (Done tt, s, [])
  | AllowWithConfirmation =>
      outcome r = Hang \/
      exists c, answered "Continue anyway? (y/n): " c (events r) /\
                ((yes c /\ outcome r = Done tt) \/ (~ yes c /\ outcome r = Break))
  | Deny => False
  end.
Proof.
  cbv zeta. unfold authorize, read_memory_check.
  destruct (isValidSRAMAddress addr); simpl; [reflexivity |].
  rewrite bind_emit, (bind_pure _ _ _ _ _ (printHex16_run _ _)), bind_emit.
  assert (Hio :
    (if isIOAddress addr then emit (Println "This is in I/O register space.") else ret tt) s =
    (Done tt, s, if isIOAddress addr then [Println "This is in I/O register space."] else [])).
  { destruct (isIOAddress addr); reflexivity. }
  rewrite (bind_pure _ _ _ _ _ Hio), bind_emit. run_proj.
  set (before := Print "WARNING: Address 0x" :: hex16_trace addr ++
                 Println " is outside SRAM range!" ::
                 (if isIOAddress addr then [Println "This is in I/O register space."] else [])).
  assert (Hb : Forall (fun e => is_store e = false) before).
  { subst before. constructor; [reflexivity |].
    apply Forall_app; split; [apply silent_no_store, silent_hex16 |].
    constructor; [reflexivity |]. destruct (isIOAddress addr); repeat constructor. }
  pose proof (ask_shape fuel "Continue anyway? (y/n): " before s Hb) as H.
  cbv zeta in H.
  destruct H as [H | (c & Ha & Hc)]; [left; exact H | right].
  exists c; split; [| exact Hc].
  eapply answered_eq; [exact Ha |].
  subst before. simpl. rewrite <- app_assoc. reflexivity.
Qed.

(** What the check of case '4' does, by the decision for the address. *)
Lemma write_memory_check_decides fuel addr s :
  let r := write_memory_check E fuel addr s in
  match authorize addr OpWrite with
  | Allow => r = (Done tt, s, [])
  | AllowWithConfirmation =>
      outcome r = Hang \/
      exists c, answered "Force write? (y/n): " c (events r) /\
                ((yes c /\ outcome r = Done tt) \/ (~ yes c /\ outcome r = Break))
  | Deny =>
      r = (Break, s,
           Print "ERROR: Address 0x" :: hex16_trace addr ++
           [Println " is not in writable SRAM!";
            Println "Cannot write to Flash or invalid address."])
  end.
Proof.
  cbv zeta. unfold authorize, write_memory_check.
  destruct (isValidSRAMAddress addr); simpl; [reflexivity |].
  rewrite bind_emit, (bind_pure _ _ _ _ _ (printHex16_run _ _)), bind_emit.
  destruct (isIOAddress addr).
  - rewrite !bind_emit. run_proj.
    set (before := Print "ERROR: Address 0x" :: hex16_trace addr ++
                   [Println " is not in writable SRAM!";
                    Println "Writing to I/O registers can be dangerous!"]).
    assert (Hb : Forall (fun e => is_store e = false) before).
    { subst before. constructor; [reflexivity |].
      apply Forall_app; split; [apply silent_no_store, silent_hex16 | repeat constructor]. }
    pose proof (ask_shape fuel "Force write? (y/n): " before s Hb) as H.
    cbv zeta in H.
    destruct H as [H | (c & Ha & Hc)]; [left; exact H | right].
    exists c; split; [| exact Hc].
    eapply answered_eq; [exact Ha |].
    subst before. simpl. rewrite <- app_assoc. reflexivity.
  - rewrite bind_emit. reflexivity.
Qed.

End Prompts.

(** ** The dump as a whole *)

Lemma uint32_small x : 0 <= x < 4294967296 -> uint32 x = x.
Proof. intros H; unfold uint32; apply Z.mod_small; exact H. Qed.


Lemma read_memory_dump_done addr len s :
  0 <= addr <= 0xFFFF -> 0 <= len <= 0xFFFF ->
  addr + len <= 0xFFFF -> len <> INPUT_TIMEOUT_SENTINEL ->
  outcome (read_memory_dump addr len s) = Done tt /\
  final (read_memory_dump addr len s) = s /\
  loads_of (events (read_memory_dump addr len s)) = span addr (Z.to_nat len) /\
  loaded_values (events (read_memory_dump addr len s)) =
    map (fun a => uint8 (mem s a)) (span addr (Z.to_nat len)) /\
  Forall (fun e => is_store e = false) (events (read_memory_dump addr len s)).
Proof.
  intros Ha Hl Hsum Hne. unfold read_memory_dump.
  destruct (Z.eqb_spec len INPUT_TIMEOUT_SENTINEL) as [? | _]; [contradiction |].
  rewrite uint32_small by lia.
  destruct (Z.ltb_spec 0xFFFF (addr + len)); [lia |].
  destruct (read_memory_loop (Z.to_nat len) addr 0 s) as (Ho & Hf & Hld & Hv & Hs).
  rewrite outcome_bind, final_bind, events_bind, Ho, Hf.
  change (outcome (emit (Println "") s)) with (@Done unit tt).
  change (final (emit (Println "") s)) with s.
  change (events (emit (Println "") s)) with [Println ""].
  rewrite loads_of_app, loaded_values_app, Hld, Hv.
  assert (Hshift : map (fun j => uint16 (addr + j)) (span 0 (Z.to_nat len)) =
                   span addr (Z.to_nat len)).
  { rewrite span_shift by lia. f_equal. lia. }
  split; [reflexivity |]. split; [reflexivity |].
  split; [| split].
  - rewrite Hshift. apply app_nil_r.
  - rewrite <- Hshift, map_map. apply app_nil_r.
  - apply Forall_app; split; [exact Hs | repeat constructor].
Qed.

Lemma isValidSRAMAddress_range addr :
  isValidSRAMAddress addr = true <-> 0x0100 <= addr <= 0x08FF.
Proof. unfold isValidSRAMAddress, SRAM_START, SRAM_END. lia. Qed.


Lemma isValidFlashAddress_range addr :
  isValidFlashAddress addr = true <-> addr <= 0x7FFF.
Proof. unfold isValidFlashAddress, FLASH_END. lia. Qed.

Lemma not_in_hex8 s v : ~ In (Println s) (hex8_trace v) /\ ~ In (Print s) (hex8_trace v).
Proof.
  unfold hex8_trace; destruct (v <? 16); simpl; split; intros H;
    repeat (destruct H as [H | H]; [discriminate H |]); exact H.
Qed.

(** C7: in the data-memory region, writing byte v at address a stores v
    there, reads the address back and reports "Verified."; the cell then holds
    v and a read of length 1 at a returns v.  At any address, success is
    reported exactly when the byte read back equals the byte written, and the
    failure report exactly when it differs. *)
Theorem write_then_read_back (E : Env) (addr val : Z) (s : State) :
  isValidSRAMAddress addr = true -> 0 <= val < 256 ->
  let r := write_memory_verify E addr val s in
  outcome r = Done tt
  /\ (exists before,
        events r = before ++ [Store addr val; Load addr val; Println "Verified."] /\
        silent before)
  /\ mem (final r) addr = val
  /\ (let r2 := read_memory_dump addr 1 (final r) in
      outcome r2 = Done tt /\
      loads_of (events r2) = [addr] /\
      loaded_values (events r2) = [val])
  /\ (forall a v s0,
        let r0 := write_memory_verify E a v s0 in
        exists readback before after,
          events r0 = before ++ Store a v :: Load a readback :: after /\
          silent before /\
          (In (Println "Verified.") after <-> readback = v) /\
          (In (Print "FAILED (Readback: 0x") after <-> readback <> v)).
Proof.
  intros Hsram Hval. cbv zeta.
  assert (Hkept : uint8 (kept_value E s addr val) = val).
  { unfold kept_value. rewrite Hsram. apply Z.mod_small; lia. }
  assert (Hkept' : kept_value E s addr val = val).
  { unfold kept_value. rewrite Hsram. reflexivity. }
  rewrite write_memory_verify_run. run_proj.
  split; [reflexivity |]. split; [| split; [| split]].
  - rewrite Hkept, Z.eqb_refl.
    exists (Print "Writing 0x" :: hex8_trace val ++
            Print " to 0x" :: hex16_trace addr ++ [Print "... "]).
    split.
    + simpl. rewrite <- !app_assoc. simpl. rewrite <- !app_assoc. reflexivity.
    + constructor; [reflexivity |].
      apply Forall_app; split; [apply silent_hex8 |].
      constructor; [reflexivity |].
      apply Forall_app; split; [apply silent_hex16 | repeat constructor].
  - cbn [mem set_mem]. rewrite Z.eqb_refl. exact Hkept'.
  - apply isValidSRAMAddress_range in Hsram.
    set (s1 := set_mem _ s).
    destruct (read_memory_dump_done addr 1 s1) as (Ho & _ & Hl & Hv & _);
      try (unfold INPUT_TIMEOUT_SENTINEL; lia).
    split; [exact Ho |]. split; [exact Hl |].
    rewrite Hv. simpl. subst s1. cbn [mem set_mem].
    rewrite Z.eqb_refl, Hkept'. f_equal. apply Z.mod_small; lia.
  - intros a v s0. rewrite write_memory_verify_run. run_proj.
    exists (uint8 (kept_value E s0 a v)),
           (Print "Writing 0x" :: hex8_trace v ++
            Print " to 0x" :: hex16_trace a ++ [Print "... "]).
    eexists. split; [| split; [| split]].
    + simpl. rewrite <- !app_assoc. simpl. rewrite <- !app_assoc. reflexivity.
    + constructor; [reflexivity |].
      apply Forall_app; split; [apply silent_hex8 |].
      constructor; [reflexivity |].
      apply Forall_app; split; [apply silent_hex16 | repeat constructor].
    + destruct (Z.eqb_spec (uint8 (kept_value E s0 a v)) v) as [Heq | Hne].
      * split; [intros _; exact Heq | intros _; left; reflexivity].
      * split; [| intros Heq; contradiction].
        intros [H | H]; [discriminate H |].
        apply in_app_or in H. destruct H as [H | H].
        -- exfalso. exact (proj1 (not_in_hex8 _ _) H).
        -- destruct H as [H | []]. discriminate H.
    + destruct (Z.eqb_spec (uint8 (kept_value E s0 a v)) v) as [Heq | Hne].
      * split; [| intros Hne; contradiction].
        intros [H | []]. discriminate H.
      * split; [intros _; exact Hne | intros _; left; reflexivity].
Qed.

Lemma write_then_read_back_witness :
  isValidSRAMAddress 0x0200 = true /\ 0 <= 0xAB < 256 /\
  mem (final (write_memory_verify (typed []) 0x0200 0xAB init_state)) 0x0200 = 0xAB.
Proof.
  assert (H1 : isValidSRAMAddress 0x0200 = true) by reflexivity.
  assert (H2 : 0 <= 0xAB < 256) by lia.
  split; [exact H1 |]. split; [exact H2 |].
  exact (proj1 (proj2 (proj2 (write_then_read_back (typed []) 0x0200 0xAB init_state H1 H2)))).
Defined.

(** ** Reads: what is checked before bytes are transferred (claim C2) *)




(** ** Addresses outside every region (claim C3) *)





(** ** The worked example (claim C8) *)

(** C8 (amended): with data=[0x0100,0x08FF], code=[0x0000,0x7FFF] and
    io=[0x0020,0x00FF], address 0x0050 is I/O and both reading and writing it
    need confirmation; address 0x0200 is data and both are allowed at once;
    address 0x0900 is outside SRAM and I/O (out-of-range for a data access):
    a write there is denied, while a read is allowed after confirmation. *)
Theorem classify_examples :
  (classify 0x0050 = RegionIO /\
   authorize 0x0050 OpRead = AllowWithConfirmation /\
   authorize 0x0050 OpWrite = AllowWithConfirmation)
  /\ (classify 0x0900 = RegionOutOfRange /\
      authorize 0x0900 OpWrite = Deny /\
      authorize 0x0900 OpRead = AllowWithConfirmation)
  /\ (classify 0x0200 = RegionData /\
      authorize 0x0200 OpRead = Allow /\
      authorize 0x0200 OpWrite = Allow)
  /\ (forall (E : Env) (fuel : nat) (s : State),
        read_memory_check E fuel 0x0200 s = (Done tt, s, []) /\
        write_memory_check E fuel 0x0200 s = (Done tt, s, []) /\
        outcome (write_memory_check E fuel 0x0900 s) = Break /\
        (outcome (write_memory_check E fuel 0x0050 s) = Done tt ->
         exists c, yes c /\
           answered "Force write? (y/n): " c (events (write_memory_check E fuel 0x0050 s))) /\
        (outcome (read_memory_check E fuel 0x0050 s) = Done tt ->
         exists c, yes c /\
           answered "Continue anyway? (y/n): " c (events (read_memory_check E fuel 0x0050 s))) /\
        (outcome (read_memory_check E fuel 0x0900 s) = Done tt ->
         exists c, yes c /\
           answered "Continue anyway? (y/n): " c (events (read_memory_check E fuel 0x0900 s)))).
Proof.
  split; [repeat split |]. split; [repeat split |]. split; [repeat split |].
  intros E fuel s.
  pose proof (read_memory_check_decides E fuel 0x0200 s) as R200.
  pose proof (write_memory_check_decides E fuel 0x0200 s) as W200.
  pose proof (write_memory_check_decides E fuel 0x0900 s) as W900.
  pose proof (write_memory_check_decides E fuel 0x0050 s) as W50.
  pose proof (read_memory_check_decides E fuel 0x0050 s) as R50.
  pose proof (read_memory_check_decides E fuel 0x0900 s) as R900.
  cbv zeta in *.
  change (authorize 0x0200 OpRead) with Allow in R200.
  change (authorize 0x0200 OpWrite) with Allow in W200.
  change (authorize 0x0900 OpWrite) with Deny in W900.
  change (authorize 0x0050 OpWrite) with AllowWithConfirmation in W50.
  change (authorize 0x0050 OpRead) with AllowWithConfirmation in R50.
  change (authorize 0x0900 OpRead) with AllowWithConfirmation in R900.
  cbv iota in *.
  split; [exact R200 |]. split; [exact W200 |].
  split; [rewrite W900; reflexivity |].
  assert (Hpass : forall (r : Outcome unit * State * list Event) prompt,
    (outcome r = Hang \/
     exists c, answered prompt c (events r) /\
               ((yes c /\ outcome r = Done tt) \/ (~ yes c /\ outcome r = Break))) ->
    outcome r = Done tt -> exists c, yes c /\ answered prompt c (events r)).
  { intros r prompt [Hh | (c & Hans & [[Hy _] | [_ Hb]])] Hdone.
    - rewrite Hdone in Hh; discriminate Hh.
    - exists c; split; assumption.
    - rewrite Hdone in Hb; discriminate Hb. }
  split; [apply Hpass, W50 |]. split; [apply Hpass, R50 | apply Hpass, R900].
Qed.

(** C8, as stated, fails at 0x0900 for a read: the operator types address
    900, answers y and asks for one byte, and the byte is loaded; the
    decision there is not Deny. *)
Lemma read_0900_not_denied_counterexample :
  let r := loop_case_3 (typed [codes "900"; [CH_LF]; [CH_y]; codes "1"; [CH_LF]])
             10 init_state in
  classify 0x0900 = RegionOutOfRange /\
  outcome r = Done tt /\
  loads_of (events r) = [0x0900].
Proof.
  cbv zeta. split; [reflexivity |]. split; vm_compute; reflexivity.
Qed.

(** ** The confirmation gate of I/O writes (claim C6) *)



(** Case '4' either stores nothing, or has passed its address check and ends
    in the store-and-verify step. *)
Lemma loop_case_4_shape (E : Env) fuel s :
  let r := loop_case_4 E fuel s in
  (silent (events r) /\ same_machine s (final r)) \/
  (exists addr val s1 s2 pre mid,
     outcome (write_memory_check E fuel addr s1) = Done tt /\
     silent pre /\ silent mid /\ mem s2 = mem s /\
     events r = pre ++ events (write_memory_check E fuel addr s1) ++
                mid ++ events (write_memory_verify E addr val s2) /\
     final r = final (write_memory_verify E addr val s2)).
Proof.
  cbv zeta. unfold loop_case_4.
  rewrite bind_emit. run_proj.
  rewrite final_bind, events_bind.
  destruct (quiet_readHexInput E fuel s) as [Hs1 He1].
  set (s1 := final (readHexInput E fuel s)) in *.
  set (e1 := events (readHexInput E fuel s)) in *.
  assert (Hpre : silent (Print "Address (Hex): " :: e1)) by (constructor; [reflexivity | exact He1]).
  destruct (outcome (readHexInput E fuel s)) as [addr| |];
    [| left; split; assumption ..].
  destruct (addr =? INPUT_TIMEOUT_SENTINEL).
  { left. split; [| exact Hs1]. simpl. rewrite app_nil_r. exact Hpre. }
  rewrite final_bind, events_bind.
  destruct (quiet_write_memory_check E fuel addr s1) as [Hs2 He2].
  set (s2 := final (write_memory_check E fuel addr s1)) in *.
  set (e2 := events (write_memory_check E fuel addr s1)) in *.
  assert (Hs12 : same_machine s s2) by (eapply same_machine_trans; eassumption).
  destruct (outcome (write_memory_check E fuel addr s1)) as [[]| |] eqn:Ho2;
    [| left; split; [constructor; [reflexivity | apply Forall_app; split; assumption]
                    | exact Hs12] ..].
  rewrite bind_emit. run_proj.
  rewrite final_bind, events_bind.
  destruct (quiet_readHexInput E fuel s2) as [Hs3 He3].
  set (s3 := final (readHexInput E fuel s2)) in *.
  set (e3 := events (readHexInput E fuel s2)) in *.
  assert (Hs13 : same_machine s s3) by (eapply same_machine_trans; eassumption).
  assert (Hmid : silent (Print "Value (Hex): " :: e3)) by (constructor; [reflexivity | exact He3]).
  destruct (outcome (readHexInput E fuel s2)) as [val_read| |].
  2,3: left; split; [| exact Hs13];
       constructor; [reflexivity |]; apply Forall_app; split; [exact He1 |];
       apply Forall_app; split; [exact He2 | exact Hmid].
  unfold write_memory_store.
  destruct (val_read =? INPUT_TIMEOUT_SENTINEL).
  - left. split; [| exact Hs13]. simpl events. rewrite app_nil_r.
    constructor; [reflexivity |]. apply Forall_app; split; [exact He1 |].
    apply Forall_app; split; [exact He2 | exact Hmid].
  - right. exists addr, (uint8 val_read), s1, s3, (Print "Address (Hex): " :: e1),
             (Print "Value (Hex): " :: e3).
    split; [exact Ho2 |]. split; [exact Hpre |]. split; [exact Hmid |].
    split; [apply Hs13 |]. split; reflexivity.
Qed.


(** ** Capture and restore (claim C1) *)

Lemma store_regs_length rs : forall i buf, length (store_regs i rs buf) = length buf.
Proof.
  induction rs as [|r rs IH]; intros i buf; simpl; [reflexivity |].
  rewrite IH. apply length_insert.
Qed.

Lemma store_regs_lookup rs : forall (i : nat) (buf : list Z) (j : nat),
  (i + length rs <= length buf)%nat ->
  store_regs i rs buf !! j =
  if decide (i <= j < i + length rs)%nat then rs !! (j - i)%nat else buf !! j.
Proof.
  induction rs as [|r rs IH]; intros i buf j Hlen; simpl in *.
  - case_decide; [lia | reflexivity].
  - rewrite IH by (rewrite length_insert; lia).
    destruct (decide (j = i)) as [-> | Hne].
    + rewrite decide_False by lia. rewrite decide_True by lia.
      rewrite list_lookup_insert_eq by lia.
      replace (i - i)%nat with 0%nat by lia. reflexivity.
    + rewrite list_lookup_insert_ne by congruence.
      destruct (decide (S i <= j < S i + length rs)%nat) as [Hin | Hout].
      * rewrite decide_True by lia.
        replace (j - i)%nat with (S (j - S i)) by lia. reflexivity.
      * rewrite decide_False by lia. reflexivity.
Qed.

Lemma captured_registers (s : State) :
  length (cpu s) = 32%nat -> (33 <= length (reg_file s))%nat ->
  take 32 (reg_file (final (capture_registers s))) = cpu s /\
  reg_file (final (capture_registers s)) !! SREG_BUFFER_INDEX = Some (sreg s) /\
  length (reg_file (final (capture_registers s))) = length (reg_file s).
Proof.
  intros Hcpu Hbuf. unfold capture_registers, final, SREG_BUFFER_INDEX; simpl.
  split; [| split].
  - apply list_eq. intros j. rewrite lookup_take.
    case_decide as Hj.
    + rewrite list_lookup_insert_ne by lia.
      rewrite store_regs_lookup by lia.
      rewrite decide_True by lia. f_equal. lia.
    + symmetry. apply lookup_ge_None_2. lia.
  - apply list_lookup_insert_eq. rewrite store_regs_length. lia.
  - rewrite length_insert. apply store_regs_length.
Qed.

(** C1: capture_registers on the snapshot buffer followed by restore_and_call
    from that buffer, with a target that does nothing and returns, leaves all
    32 general-purpose registers and the status register holding exactly what
    they held before the capture, whatever the registers were overwritten
    with in between.  The capture itself leaves the registers and the status
    register as they are and puts them into the buffer, r0..r31 at indices
    0..31 and the status register at index 32, whatever the buffer held. *)
Theorem capture_restore_roundtrip (E : Env) (target : Z) (s s' : State) :
  length (cpu s) = 32%nat ->
  (33 <= length (reg_file s))%nat ->
  (exists routine, env_code E target = Some routine /\
                   forall rf, routine rf = rf) ->
  reg_file s' = reg_file (final (capture_registers s)) ->
  let r := restore_and_call E target s' in
  (outcome r = Done tt /\ cpu (final r) = cpu s /\ sreg (final r) = sreg s) /\
  (cpu (final (capture_registers s)) = cpu s /\
   sreg (final (capture_registers s)) = sreg s /\
   take 32 (reg_file (final (capture_registers s))) = cpu s /\
   reg_file (final (capture_registers s)) !! SREG_BUFFER_INDEX = Some (sreg s)).
Proof.
  intros Hcpu Hbuf (routine & Hcode & Hnoop) Hsame. cbv zeta.
  destruct (captured_registers s Hcpu Hbuf) as (Htake & Hflags & _).
  split.
  - unfold restore_and_call. rewrite Hcode, Hsame, Htake, Hflags, Hnoop.
    repeat split.
  - split; [reflexivity |]. split; [reflexivity |]. split; assumption.
Qed.

Lemma capture_restore_roundtrip_witness :
  let clobbered := set_cpu (replicate 32 0xFF) 0 (final (capture_registers busy_state)) in
  cpu clobbered = replicate 32 0xFF /\
  sreg clobbered = 0 /\
  cpu (final (restore_and_call (typed []) 0x0100 clobbered)) = map Z.of_nat (seq 1 32) /\
  sreg (final (restore_and_call (typed []) 0x0100 clobbered)) = 0x83 /\
  take 32 (reg_file (final (capture_registers busy_state))) = map Z.of_nat (seq 1 32).
Proof.
  cbv zeta.
  assert (H1 : length (cpu busy_state) = 32%nat) by reflexivity.
  assert (H2 : (33 <= length (reg_file busy_state))%nat) by (simpl; lia).
  assert (H3 : exists routine, env_code (typed []) 0x0100 = Some routine /\
                               forall rf : list Z * Z, routine rf = rf)
    by (exists (fun rf => rf); split; reflexivity).
  split; [reflexivity |]. split; [reflexivity |].
  destruct (capture_restore_roundtrip (typed []) 0x0100 busy_state
              (set_cpu (replicate 32 0xFF) 0 (final (capture_registers busy_state)))
              H1 H2 H3 eq_refl) as [(_ & Hc & Hf) (_ & _ & Ht & _)].
  split; [exact Hc |]. split; [exact Hf | exact Ht].
Defined.

(** ** Word to byte address (claim C4) *)






(** The 16-bit product of 0x8000 would wrap to 0, inside code memory; the
    32-bit product does not, and the request is rejected. *)
Example wrapped_product_rejected :
  uint16 (0x8000 * 2) = 0 /\ to_byte_address 0x8000 = 0x10000 /\
  outcome (call_flash (typed [[CH_y]]) 4 0x8000 init_state) = Break.
Proof. repeat split. Qed.


(** ** Waiting for input (claim C5) *)

Section Waiting.

Variable E : Env.

Lemma line_dead_poll s :
  line_dead E s ->
  Serial_available E s = (Done 0, set_serial (S (polls s)) [] s, []) /\
  line_dead E (set_serial (S (polls s)) [] s).
Proof.
  intros [Hrx Hno]. unfold Serial_available.
  rewrite Hrx, (Hno (polls s)) by lia. split; [reflexivity |].
  split; [reflexivity |]. intros k Hk. apply Hno. simpl in Hk. lia.
Qed.

Lemma bind_millis {B} (f : Z -> M B) s :
  bind (millis E) f s = f (uint32 (env_millis E (ticks s))) (set_ticks (S (ticks s)) s).
Proof. rewrite bind_run. unfold millis; simpl. symmetry; apply run_eta. Qed.

Lemma bind_poll_dead {B} (f : Z -> M B) s :
  line_dead E s ->
  bind (Serial_available E) f s = f 0 (set_serial (S (polls s)) [] s).
Proof.
  intros Hdead. destruct (line_dead_poll s Hdead) as [Hpoll _].
  rewrite bind_run, Hpoll. run_proj. simpl. symmetry; apply run_eta.
Qed.

(** The wait of a yes/no prompt has no clock in it: on a dead line it is
    still waiting after any number of polls. *)
Lemma wait_available_dead fuel : forall s,
  line_dead E s -> outcome (wait_available E fuel s) = Hang.
Proof.
  induction fuel as [|fuel IH]; intros s Hdead; simpl; [reflexivity |].
  rewrite bind_poll_dead by exact Hdead. simpl.
  apply IH. apply line_dead_poll, Hdead.
Qed.

Lemma read_confirm_dead fuel s :
  line_dead E s -> outcome (read_confirm E fuel s) = Hang.
Proof.
  intros Hdead. unfold read_confirm.
  rewrite outcome_bind, (wait_available_dead fuel s Hdead). reflexivity.
Qed.

(** Line entry does have a clock in it: on a dead line it returns the
    sentinel at the first reading of [millis()] that is [timeout_ms] or more
    past the start. *)
Lemma readInputLine_loop_times_out maxLen isHex timeout_ms buffer pos startTime :
  forall (n : nat) s,
    line_dead E s ->
    timeout_ms <= uint32 (uint32 (env_millis E (ticks s + n)) - startTime) ->
    outcome (readInputLine_loop E (S n) maxLen isHex timeout_ms buffer pos startTime s)
      = Done INPUT_TIMEOUT_SENTINEL.
Proof.
  induction n as [|n IH]; intros s Hdead Hlate.
  - cbn [readInputLine_loop]. rewrite bind_millis.
    replace (ticks s + 0)%nat with (ticks s) in Hlate by lia.
    destruct (Z.ltb_spec (uint32 (uint32 (env_millis E (ticks s)) - startTime)) timeout_ms);
      [lia | reflexivity].
  - cbn [readInputLine_loop]. rewrite bind_millis.
    destruct (uint32 (uint32 (env_millis E (ticks s)) - startTime) <? timeout_ms);
      [| reflexivity].
    assert (Hdead1 : line_dead E (set_ticks (S (ticks s)) s)) by exact Hdead.
    rewrite bind_poll_dead by exact Hdead1.
    change (negb (0 =? 0)) with false. cbv iota.
    apply IH; [apply (line_dead_poll _ Hdead1) |].
    simpl ticks. replace (S (ticks s) + n)%nat with (ticks s + S n)%nat by lia.
    exact Hlate.
Qed.

Lemma readInputLine_times_out (n : nat) buffer maxLen isHex timeout_ms s :
  line_dead E s ->
  timeout_ms <= uint32 (uint32 (env_millis E (S (ticks s) + n))
                        - uint32 (env_millis E (ticks s))) ->
  outcome (readInputLine E (S n) buffer maxLen isHex timeout_ms s)
    = Done INPUT_TIMEOUT_SENTINEL.
Proof.
  intros Hdead Hlate. unfold readInputLine. rewrite bind_millis.
  apply readInputLine_loop_times_out; [exact Hdead | exact Hlate].
Qed.

End Waiting.

(** No address of a known region is the sentinel. *)
Lemma sentinel_is_no_address addr :
  isValidSRAMAddress addr || isIOAddress addr || isValidFlashAddress addr = true ->
  addr <> INPUT_TIMEOUT_SENTINEL.
Proof.
  unfold isValidSRAMAddress, isIOAddress, isValidFlashAddress, INPUT_TIMEOUT_SENTINEL,
    SRAM_START, SRAM_END, IO_START, FLASH_END. lia.
Qed.

(** No length that fits behind an I/O or SRAM address in the data space, or
    behind any address in program memory, is the sentinel. *)
Lemma sentinel_is_no_length addr len :
  0 <= len ->
  (IO_START <= addr /\ addr + len <= 0xFFFF) \/ (0 <= addr /\ addr + len <= FLASH_END + 1) ->
  len <> INPUT_TIMEOUT_SENTINEL.
Proof. unfold IO_START, FLASH_END, INPUT_TIMEOUT_SENTINEL. lia. Qed.

(** The sentinel is an ordinary 16-bit value: typing FFFF at a hex prompt, or
    65535 at a decimal prompt, gives the same result as a timeout. *)
Example typed_FFFF_reads_as_sentinel :
  outcome (readHexInput (typed [codes "FFFF"; [CH_LF]]) 8 init_state)
    = Done INPUT_TIMEOUT_SENTINEL /\
  outcome (readDecInput (typed [codes "65535"; [CH_LF]]) 8 init_state)
    = Done INPUT_TIMEOUT_SENTINEL.
Proof. split; vm_compute; reflexivity. Qed.

(** Line entry gives up: with a clock of 1000 ms per reading and a silent
    line, the address prompt returns the sentinel. *)
Example line_entry_times_out :
  outcome (readHexInput (script_env 1000 []) 16 init_state) = Done INPUT_TIMEOUT_SENTINEL.
Proof.
  apply (readInputLine_times_out (script_env 1000 []) 15).
  - split; [reflexivity |]. intros k _. reflexivity.
  - vm_compute. discriminate.
Qed.

Lemma typed_dead script s :
  rx s = [] -> (length script <= polls s)%nat -> line_dead (typed script) s.
Proof.
  intros Hrx Hlen. split; [exact Hrx |].
  intros k Hk. simpl. rewrite lookup_ge_None_2 by lia. reflexivity.
Qed.

(** C5: the operator chooses '5', types the word address 100 and Enter, and
    then sends nothing.  However long the sketch is run, it is still inside
    the wait of the "Continue? (y/n): " prompt: that wait has no timeout and
    returns no sentinel. *)
Theorem confirmation_prompt_never_times_out (fuel : nat) :
  outcome (loop_case_5 (typed [codes "100"; [CH_LF]]) fuel init_state) = Hang.
Proof.
  destruct fuel as [|[|[|[|fuel]]]]; try (vm_compute; reflexivity).
  unfold loop_case_5. rewrite bind_emit. run_proj.
  rewrite outcome_bind.
  set (r := readHexInput (typed [codes "100"; [CH_LF]]) (S (S (S (S fuel)))) init_state).
  assert (Hr : outcome r = Done 0x0100 /\ rx (final r) = [] /\ polls (final r) = 4%nat).
  { subst r. vm_compute. repeat split. }
  destruct Hr as (Ho & Hrx & Hpolls). rewrite Ho.
  unfold call_flash, to_byte_address.
  change (0x0100 =? INPUT_TIMEOUT_SENTINEL) with false.
  change (FLASH_END <? uint32 (0x0100 * 2)) with false. cbv iota.
  rewrite !bind_emit. run_proj.
  rewrite outcome_bind, read_confirm_dead; [reflexivity |].
  apply typed_dead; [exact Hrx |]. rewrite Hpolls. simpl. lia.
Qed.


(** ** The indeterminate first contents of the line buffer do not matter *)

Lemma digit_value_null base : 0 < base -> digit_value base 0 = None.
Proof.
  intros Hb. unfold digit_value, isdigit; simpl.
  destruct (Z.ltb_spec base base); [lia | reflexivity].
Qed.

Lemma strtol_digits_terminated base (Hb : 0 < base) (pre : list Z) :
  forall acc rest1 rest2,
    strtol_digits base acc (pre ++ 0 :: rest1) = strtol_digits base acc (pre ++ 0 :: rest2).
Proof.
  induction pre as [|c pre IH]; intros acc rest1 rest2; simpl.
  - rewrite digit_value_null by exact Hb. reflexivity.
  - destruct (digit_value base c); [apply IH | reflexivity].
Qed.

Lemma agree_below_le pos pos' b1 b2 :
  agree_below pos b1 b2 -> 0 <= pos' <= pos -> agree_below pos' b1 b2.
Proof.
  intros [Hlen Htake] Hle. split; [exact Hlen |].
  replace (Z.to_nat pos') with (Z.to_nat pos' `min` Z.to_nat pos)%nat by lia.
  rewrite <- !take_take, Htake. reflexivity.
Qed.

Lemma agree_below_insert pos c b1 b2 :
  0 <= pos -> (Z.to_nat pos < length b1)%nat ->
  agree_below pos b1 b2 ->
  agree_below (pos + 1) (<[Z.to_nat pos := c]> b1) (<[Z.to_nat pos := c]> b2).
Proof.
  intros Hpos Hin [Hlen Htake]. split; [rewrite !length_insert; exact Hlen |].
  replace (Z.to_nat (pos + 1)) with (S (Z.to_nat pos)) by lia.
  rewrite (take_S_r _ _ c) by (apply list_lookup_insert_eq; lia).
  rewrite (take_S_r (<[Z.to_nat pos := c]> b2) _ c)
    by (apply list_lookup_insert_eq; lia).
  rewrite !take_insert_ge by lia. rewrite Htake. reflexivity.
Qed.

Lemma strtol_agree base pos b1 b2 :
  0 < base -> 0 <= pos -> (Z.to_nat pos < length b1)%nat ->
  agree_below pos b1 b2 ->
  strtol (<[Z.to_nat pos := 0]> b1) base = strtol (<[Z.to_nat pos := 0]> b2) base.
Proof.
  intros Hb Hpos Hin [Hlen Htake]. unfold strtol. f_equal.
  rewrite (insert_take_drop b1), (insert_take_drop b2) by lia.
  rewrite Htake. apply strtol_digits_terminated. exact Hb.
Qed.

Section BufferContents.

Variable E : Env.

Lemma bind_ext {A B} (m : M A) (f g : A -> M B) s :
  (forall a s', f a s' = g a s') -> bind m f s = bind m g s.
Proof.
  intros H. rewrite !bind_run. destruct (outcome (m s)); [rewrite H |..]; reflexivity.
Qed.

(** What one character does to position and output does not depend on the
    buffer; the buffer is either kept or written at [pos]. *)
Lemma readInputLine_char_shape maxLen isHex pos c :
  exists pos' evs (w : bool),
    (forall b s, readInputLine_char maxLen isHex b pos c s =
                 (Done (if w then <[Z.to_nat pos := c]> b else b, pos'), s, evs)) /\
    (pos_ok maxLen pos ->
     pos_ok maxLen pos' /\ pos' <= pos + 1 /\
     (w = true -> pos < maxLen - 1) /\ (w = false -> pos' <= pos)).
Proof.
  unfold readInputLine_char.
  destruct ((c =? CH_BS) || (c =? CH_DEL)).
  - destruct (Z.ltb_spec 0 pos) as [Hp | Hp].
    + exists (uint8 (pos - 1)), [Print BS_SP_BS], false. split; [reflexivity |].
      intros [Hp0 Hp']. pose proof (uint8_le (pos - 1)). unfold pos_ok.
      split; [lia |]. split; [lia |]. split; [discriminate | lia].
    + exists pos, [], false. split; [reflexivity |].
      intros Hok. split; [exact Hok |]. split; [lia |]. split; [discriminate | lia].
  - destruct (Z.ltb_spec pos (maxLen - 1)) as [Hlt | Hge].
    + destruct ((isHex && isxdigit c) || (negb isHex && isdigit c)).
      * exists (uint8 (pos + 1)), [BufWrite pos c; PrintChar c], true.
        split; [reflexivity |].
        intros [Hp0 Hp']. pose proof (uint8_le (pos + 1)). unfold pos_ok.
        split; [lia |]. split; [lia |]. split; [intros _; exact Hlt | discriminate].
      * exists pos, [], false. split; [reflexivity |].
        intros Hok. split; [exact Hok |]. split; [lia |]. split; [discriminate | lia].
    + exists pos, [], false. split; [reflexivity |].
      intros Hok. split; [exact Hok |]. split; [lia |]. split; [discriminate | lia].
Qed.

Lemma readInputLine_loop_agree fuel maxLen isHex timeout_ms :
  forall b1 b2 pos startTime s,
    pos_ok maxLen pos -> maxLen <= Z.of_nat (length b1) ->
    agree_below pos b1 b2 ->
    readInputLine_loop E fuel maxLen isHex timeout_ms b1 pos startTime s =
    readInputLine_loop E fuel maxLen isHex timeout_ms b2 pos startTime s.
Proof.
  induction fuel as [|fuel IH]; intros b1 b2 pos startTime s Hpos Hcap Hag;
    [reflexivity |].
  cbn [readInputLine_loop].
  apply bind_ext; intros now s1.
  destruct (uint32 (now - startTime) <? timeout_ms); [| reflexivity].
  apply bind_ext; intros n s2.
  destruct (negb (n =? 0)); [| apply IH; assumption].
  apply bind_ext; intros r s3. cbv zeta.
  destruct ((uint8 r =? CH_LF) || (uint8 r =? CH_CR)).
  - destruct (Z.ltb_spec 0 pos) as [Hp | Hp].
    + destruct Hpos as [_ [? | Hle]]; [lia |].
      rewrite (strtol_agree (if isHex then 16 else 10) pos b1 b2);
        [reflexivity | destruct isHex; lia | lia | lia | exact Hag].
    + apply bind_ext; intros st s4. apply IH; assumption.
  - destruct (readInputLine_char_shape maxLen isHex pos (uint8 r))
      as (pos' & evs & w & Hrun & Hnext).
    destruct (Hnext Hpos) as (Hpos' & Hstep & Hw & Hkeep).
    rewrite !(bind_pure _ _ _ _ _ (Hrun _ _)). cbn [fst snd].
    assert (Hk : forall s4,
      (startTime' <- millis E ;;
       readInputLine_loop E fuel maxLen isHex timeout_ms
         (if w then <[Z.to_nat pos := uint8 r]> b1 else b1) pos' startTime') s4 =
      (startTime' <- millis E ;;
       readInputLine_loop E fuel maxLen isHex timeout_ms
         (if w then <[Z.to_nat pos := uint8 r]> b2 else b2) pos' startTime') s4).
    { intros s4. apply bind_ext; intros st s5. destruct Hpos as [Hp0 Hp'].
      destruct w.
      - specialize (Hw eq_refl). apply IH; [exact Hpos' | |].
        + rewrite length_insert. exact Hcap.
        + apply (agree_below_le (pos + 1)); [| destruct Hpos'; lia].
          apply agree_below_insert; [lia | lia | exact Hag].
      - apply IH; [exact Hpos' | exact Hcap |].
        specialize (Hkeep eq_refl).
        apply (agree_below_le pos); [exact Hag | destruct Hpos'; lia]. }
    rewrite Hk. reflexivity.
Qed.

(** Whatever a buffer of capacity [maxLen] held on entry, [readInputLine]
    runs the same and returns the same. *)
Lemma readInputLine_buffer_independent fuel b1 b2 maxLen isHex timeout_ms s :
  length b1 = length b2 -> maxLen <= Z.of_nat (length b1) ->
  readInputLine E fuel b1 maxLen isHex timeout_ms s =
  readInputLine E fuel b2 maxLen isHex timeout_ms s.
Proof.
  intros Hlen Hcap. unfold readInputLine.
  apply bind_ext; intros st s1.
  apply readInputLine_loop_agree; [split; [lia | left; reflexivity] | exact Hcap |].
  split; [exact Hlen | reflexivity].
Qed.

End BufferContents.

(** ** The sketch at work *)

Ltac find_in := first [left; reflexivity | right; find_in].

(** Register 5 of the snapshot is set to 0xAB; the status slot stays. *)
Example modify_r5 :
  let r := loop_case_2 (typed [codes "5"; [CH_LF]; codes "AB"; [CH_LF]]) 8 init_state in
  outcome r = Done tt /\
  reg_file (final r) !! 5%nat = Some 0xAB /\
  reg_file (final r) !! SREG_BUFFER_INDEX = Some 0.
Proof. cbv zeta. repeat split; vm_compute; reflexivity. Qed.

(** Index 32 is refused. *)
Example modify_r32_refused :
  let r := loop_case_2 (typed [codes "32"; [CH_LF]; codes "AB"; [CH_LF]]) 8 init_state in
  outcome r = Break /\ reg_file (final r) = reg_file init_state.
Proof. cbv zeta. split; vm_compute; reflexivity. Qed.

(** A write to the I/O address 0x50 answered n stores nothing. *)
Example io_write_declined :
  let r := loop_case_4 (typed [codes "50"; [CH_LF]; codes "n"]) 8 init_state in
  outcome r = Break /\ filter (fun e => is_store e = true) (events r) = [].
Proof. cbv zeta. split; vm_compute; reflexivity. Qed.

(** The same write answered y stores the value. *)
Example io_write_confirmed :
  let r := loop_case_4 (typed [codes "50"; [CH_LF]; [CH_y]; codes "AB"; [CH_LF]])
             10 init_state in
  outcome r = Done tt /\
  filter (fun e => is_store e = true) (events r) = [Store 0x50 0xAB] /\
  mem (final r) 0x50 = 0xAB.
Proof. cbv zeta. repeat split; vm_compute; reflexivity. Qed.

(** A device that keeps its old value: the write lands nowhere and the
    read-back tells. *)
Example io_write_did_not_stick :
  let E := mkEnv (fun k => Z.of_nat k)
                 (fun k => default [] ([codes "50"; [CH_LF]; [CH_y]; codes "AB"; [CH_LF]] !! k))
                 (fun _ old _ => old) (fun _ => 0) (fun _ => None) in
  let r := loop_case_4 E 10 init_state in
  outcome r = Done tt /\
  In (Print "FAILED (Readback: 0x") (events r) /\
  mem (final r) 0x50 = 0.
Proof.
  cbv zeta. split; [vm_compute; reflexivity |]. split; [| vm_compute; reflexivity].
  vm_compute. find_in.
Qed.

(** A write to 0x0900 is refused without a prompt. *)
Example write_0900_refused :
  let r := loop_case_4 (typed [codes "900"; [CH_LF]; [CH_y]; codes "AB"; [CH_LF]])
             10 init_state in
  outcome r = Break /\ filter (fun e => is_store e = true) (events r) = [].
Proof. cbv zeta. split; vm_compute; reflexivity. Qed.

(** * The rest of the sketch *)

(** ** What line entry returns *)

Lemma bind_poll {B} (E : Env) (f : Z -> M B) s :
  bind (Serial_available E) f s =
  f (Z.of_nat (length (rx s ++ env_serial E (polls s))))
    (set_serial (S (polls s)) (rx s ++ env_serial E (polls s)) s).
Proof. rewrite bind_run. unfold Serial_available; simpl. symmetry; apply run_eta. Qed.

Lemma bind_read {B} (f : Z -> M B) s c q :
  rx s = c :: q ->
  bind Serial_read f s =
  (outcome (f c (set_serial (polls s) q s)), final (f c (set_serial (polls s) q s)),
   SerialRead c :: events (f c (set_serial (polls s) q s))).
Proof. intros H. rewrite bind_run. unfold Serial_read. rewrite H. reflexivity. Qed.

Lemma removelast_take (l : list Z) :
  removelast l = take (length l - 1) l.
Proof.
  induction l as [|x l IH]; [reflexivity |].
  destruct l as [|y l]; [reflexivity |].
  change (removelast (x :: y :: l)) with (x :: removelast (y :: l)).
  rewrite IH. simpl. rewrite Nat.sub_0_r. reflexivity.
Qed.

Lemma strtol_line base (Hb : 0 < base) (line buffer : list Z) :
  take (length line) buffer = line -> (length line < length buffer)%nat ->
  strtol (<[length line := 0]> buffer) base = strtol (line ++ [0]) base.
Proof.
  intros Htake Hlen. unfold strtol. f_equal.
  rewrite insert_take_drop by exact Hlen. rewrite Htake.
  apply strtol_digits_terminated. exact Hb.
Qed.

Section LineValue.

Variable E : Env.
Variable maxLen : Z.
Variable isHex : bool.
Variable timeout_ms : Z.
Hypothesis steady : clock_steady E timeout_ms.
Hypothesis maxLen_byte : maxLen <= 255.

Lemma readInputLine_loop_scan : forall cs current line rest fuel buffer pos k s extra,
  line_scan maxLen isHex current cs = Some (line, rest) ->
  rx s = cs ++ extra ->
  holds_line maxLen buffer pos current ->
  ticks s = S k ->
  (length cs <= fuel)%nat ->
  let r := readInputLine_loop E fuel maxLen isHex timeout_ms buffer pos
             (uint32 (env_millis E k)) s in
  outcome r = Done (uint16 (strtol (line ++ [0]) (if isHex then 16 else 10))) /\
  (exists more, rx (final r) = rest ++ extra ++ more) /\
  same_machine s (final r).
Proof.
  induction cs as [|c0 cs IH];
    intros current line rest fuel buffer pos k s extra Hscan Hrx Hline Hticks Hfuel;
    [discriminate Hscan |].
  destruct fuel as [|fuel]; [simpl in Hfuel; lia |].
  assert (Hfuel' : (length cs <= fuel)%nat) by (simpl in Hfuel; lia).
  cbv zeta. cbn [readInputLine_loop].
  rewrite bind_millis, Hticks.
  destruct (Z.ltb_spec (uint32 (uint32 (env_millis E (S k)) - uint32 (env_millis E k)))
              timeout_ms) as [_ | Hlate]; [| pose proof (steady k); lia].
  rewrite bind_poll. cbn [rx set_ticks polls].
  rewrite Hrx. cbn [app length].
  assert (Hn : negb (Z.of_nat (S (length ((cs ++ extra) ++ env_serial E (polls s)))) =? 0)
               = true) by (apply negb_true_iff, Z.eqb_neq; lia).
  rewrite Hn.
  erewrite bind_read by (cbn [rx set_serial]; reflexivity).
  run_proj. cbv zeta.
  set (s1 := set_serial _ _ _).
  assert (Hrx1 : rx s1 = cs ++ (extra ++ env_serial E (polls s)))
    by (subst s1; cbn [rx set_serial]; rewrite app_assoc; reflexivity).
  assert (Ht1 : ticks s1 = S (S k)) by (subst s1; reflexivity).
  assert (Hm1 : same_machine s s1) by (subst s1; repeat split).
  clearbody s1.
  destruct Hline as (Hpos & Htake & Hroom & Hcap).
  assert (Hbound : 0 <= pos <= 254).
  { destruct Hroom as [Hnil | Hr]; [rewrite Hnil in Hpos; simpl in Hpos; lia | lia]. }
  cbn [line_scan] in Hscan. cbv zeta in Hscan.
  assert (Hnext : forall buffer' pos' current',
    line_scan maxLen isHex current' cs = Some (line, rest) ->
    holds_line maxLen buffer' pos' current' ->
    let r := (startTime' <- millis E ;;
              readInputLine_loop E fuel maxLen isHex timeout_ms buffer' pos' startTime') s1 in
    outcome r = Done (uint16 (strtol (line ++ [0]) (if isHex then 16 else 10))) /\
    (exists more, rx (final r) = rest ++ extra ++ more) /\ same_machine s (final r)).
  { intros buffer' pos' current' Hscan' Hline'. cbv zeta.
    rewrite bind_millis, Ht1.
    destruct (IH current' line rest fuel buffer' pos' (S (S k))
                (set_ticks (S (S (S k))) s1) (extra ++ env_serial E (polls s))
                Hscan' Hrx1 Hline' eq_refl Hfuel') as (Ho & Hr & Hm).
    split; [exact Ho |]. split.
    { destruct Hr as [more Hr]. exists (env_serial E (polls s) ++ more).
      rewrite Hr, <- !app_assoc. reflexivity. }
    eapply same_machine_trans; [exact Hm1 |].
    eapply same_machine_trans; [| exact Hm]. repeat split. }
  destruct ((uint8 c0 =? CH_LF) || (uint8 c0 =? CH_CR)).
  - destruct current as [|d current].
    + cbn [length] in Hpos. subst pos. cbn [Z.of_nat]. cbv iota.
      change (0 <? 0) with false. cbv iota.
      apply (Hnext buffer 0 []); [exact Hscan |]. repeat split; assumption.
    + injection Hscan as <- <-.
      assert (Hp : 0 < pos) by (subst pos; cbn [length]; lia).
      destruct (Z.ltb_spec 0 pos) as [_ | ?]; [| lia].
      rewrite !bind_emit. run_proj.
      split.
      * unfold ret, outcome; cbn [fst]. f_equal. f_equal.
        subst pos. rewrite Nat2Z.id.
        apply strtol_line; [destruct isHex; lia | exact Htake |].
        destruct Hroom as [? | Hroom]; [discriminate |]. lia.
      * split; [exists (env_serial E (polls s)); exact Hrx1 | exact Hm1].
  - unfold readInputLine_char.
    destruct ((uint8 c0 =? CH_BS) || (uint8 c0 =? CH_DEL)).
    + destruct (Z.ltb_spec 0 pos) as [Hp | Hp].
      * rewrite bind_run. rewrite bind_emit. run_proj.
        change (outcome (ret (buffer, uint8 (pos - 1)) s1)) with (Done (buffer, uint8 (pos - 1))).
        change (final (ret (buffer, uint8 (pos - 1)) s1)) with s1.
        cbn [fst snd].
        destruct (Hnext buffer (uint8 (pos - 1)) (removelast current)) as (Ho & Hr & Hm);
          [exact Hscan | | ].
        -- assert (Hlen : length (removelast current) = (length current - 1)%nat).
           { rewrite removelast_take, length_take. lia. }
           assert (Hu : uint8 (pos - 1) = pos - 1) by (apply Z.mod_small; lia).
           split; [rewrite Hu, Hlen; lia |].
           split; [| split; [| exact Hcap]].
           ++ rewrite Hlen.
              transitivity (take (length current - 1) (take (length current) buffer));
                [rewrite take_take; f_equal; lia |].
              rewrite Htake. symmetry. apply removelast_take.
           ++ right. rewrite Hlen.
              destruct Hroom as [Hnil | Hroom];
                [rewrite Hnil in Hpos; simpl in Hpos; lia | lia].
        -- split; [exact Ho |]. split; [exact Hr | exact Hm].
      * rewrite bind_ret. cbn [fst snd].
        assert (Hcur : current = []).
        { destruct current; [reflexivity |]. cbn [length] in Hpos. lia. }
        subst current. apply (Hnext buffer pos []); [exact Hscan |].
        repeat split; assumption.
    + fold (accepted isHex (uint8 c0)).
      rewrite <- Hpos in Hscan.
      destruct (Z.ltb_spec pos (maxLen - 1)) as [Hlt | Hge].
      * destruct (accepted isHex (uint8 c0)); cbn [andb] in Hscan.
        -- rewrite bind_run. rewrite !bind_emit. run_proj.
           change (outcome (ret (<[Z.to_nat pos := uint8 c0]> buffer, uint8 (pos + 1)) s1))
             with (Done (<[Z.to_nat pos := uint8 c0]> buffer, uint8 (pos + 1))).
           change (final (ret (<[Z.to_nat pos := uint8 c0]> buffer, uint8 (pos + 1)) s1)) with s1.
           cbn [fst snd].
           destruct (Hnext (<[Z.to_nat pos := uint8 c0]> buffer) (uint8 (pos + 1))
                       (current ++ [uint8 c0])) as (Ho & Hr & Hm); [exact Hscan | |].
           ++ assert (Hu : uint8 (pos + 1) = pos + 1) by (apply Z.mod_small; lia).
              unfold holds_line. rewrite length_app. cbn [length].
              split; [rewrite Hu; lia |].
              split; [| split; [right; lia | rewrite length_insert; exact Hcap]].
              replace (length current + 1)%nat with (S (length current)) by lia.
              subst pos. rewrite Nat2Z.id.
              rewrite (take_S_r _ _ (uint8 c0)) by (apply list_lookup_insert_eq; lia).
              rewrite take_insert_ge by lia. rewrite Htake. reflexivity.
           ++ split; [exact Ho |]. split; [exact Hr | exact Hm].
        -- rewrite bind_ret. cbn [fst snd].
           apply (Hnext buffer pos current); [exact Hscan |]. repeat split; assumption.
      * cbn [andb] in Hscan. rewrite bind_ret. cbn [fst snd].
        apply (Hnext buffer pos current); [exact Hscan |]. repeat split; assumption.
Qed.

End LineValue.

Lemma accepted_plain isHex c :
  accepted isHex c = true ->
  48 <= c <= 102 /\ uint8 c = c /\
  (c =? CH_LF) || (c =? CH_CR) = false /\ (c =? CH_BS) || (c =? CH_DEL) = false.
Proof.
  intros H.
  assert (Hr : 48 <= c <= 102).
  { destruct isHex; [apply accepted_hex in H | apply accepted_dec in H]; lia. }
  split; [exact Hr |]. split; [apply Z.mod_small; lia |].
  unfold CH_LF, CH_CR, CH_BS, CH_DEL. split; lia.
Qed.

Lemma accepted_digit_value isHex c :
  accepted isHex c = true ->
  exists v, digit_value (if isHex then 16 else 10) c = Some v /\
            0 <= v < (if isHex then 16 else 10).
Proof.
  intros H. unfold digit_value.
  destruct isHex; [apply accepted_hex in H | apply accepted_dec in H]; unfold isdigit.
  - destruct H as [H | [H | H]].
    + replace ((48 <=? c) && (c <=? 57)) with true by lia.
      replace (c - 48 <? 16) with true by lia. exists (c - 48). split; [reflexivity | lia].
    + replace ((48 <=? c) && (c <=? 57)) with false by lia.
      replace ((97 <=? c) && (c <=? 122)) with true by lia.
      replace (c - 97 + 10 <? 16) with true by lia.
      exists (c - 97 + 10). split; [reflexivity | lia].
    + replace ((48 <=? c) && (c <=? 57)) with false by lia.
      replace ((97 <=? c) && (c <=? 122)) with false by lia.
      replace ((65 <=? c) && (c <=? 90)) with true by lia.
      replace (c - 65 + 10 <? 16) with true by lia.
      exists (c - 65 + 10). split; [reflexivity | lia].
  - replace ((48 <=? c) && (c <=? 57)) with true by lia.
    replace (c - 48 <? 10) with true by lia. exists (c - 48). split; [reflexivity | lia].
Qed.

Lemma strtol_digits_value isHex (ds : list Z) :
  Forall (fun c => accepted isHex c = true) ds ->
  forall acc,
    strtol_digits (if isHex then 16 else 10) acc (ds ++ [0]) =
    fold_left (fun a c => a * (if isHex then 16 else 10)
                          + default 0 (digit_value (if isHex then 16 else 10) c)) ds acc.
Proof.
  induction 1 as [|c ds Hc _ IH]; intros acc; simpl.
  - rewrite digit_value_null by (destruct isHex; lia). reflexivity.
  - destruct (accepted_digit_value isHex c Hc) as (v & Hv & _).
    rewrite Hv. simpl. apply IH.
Qed.

(** Entered digits pile up until [maxLen - 1] are held; the rest are
    dropped. *)
Lemma line_scan_digits maxLen isHex (ds : list Z) :
  Forall (fun c => accepted isHex c = true) ds ->
  forall cur e rest,
    (uint8 e =? CH_LF) || (uint8 e =? CH_CR) = true ->
    (length cur <= Z.to_nat (maxLen - 1))%nat ->
    take (Z.to_nat (maxLen - 1)) (cur ++ ds) <> [] ->
    line_scan maxLen isHex cur (ds ++ e :: rest) =
    Some (take (Z.to_nat (maxLen - 1)) (cur ++ ds), rest).
Proof.
  induction 1 as [|d ds Hd _ IH]; intros cur e rest He Hlen Hne.
  - rewrite app_nil_r in *. rewrite take_ge in * by lia.
    cbn [app line_scan]. cbv zeta. rewrite He.
    destruct cur; [contradiction | reflexivity].
  - destruct (accepted_plain isHex d Hd) as (_ & Hu & Hle & Hbs).
    cbn [app line_scan]. cbv zeta. rewrite Hu, Hle, Hbs, Hd.
    destruct (Z.ltb_spec (Z.of_nat (length cur)) (maxLen - 1)) as [Hlt | Hge]; cbn [andb].
    + rewrite IH; [| exact He | rewrite length_app; simpl; lia
                   | rewrite <- app_assoc; exact Hne].
      rewrite <- app_assoc. reflexivity.
    + assert (Hfull : length cur = Z.to_nat (maxLen - 1)) by lia.
      rewrite Hfull in *.
      rewrite take_app_length' in Hne |- * by (symmetry; exact Hfull).
      rewrite IH; [| exact He | lia
                   | rewrite take_app_length' by (symmetry; exact Hfull); exact Hne].
      rewrite take_app_length' by (symmetry; exact Hfull). reflexivity.
Qed.

Lemma typed_clock_steady script timeout_ms :
  1 < timeout_ms -> clock_steady (typed script) timeout_ms.
Proof.
  intros Ht k. unfold typed, script_env, uint32; cbn [env_millis].
  rewrite Zminus_mod_idemp_l, Zminus_mod_idemp_r.
  replace (Z.of_nat (S k) * 1 - Z.of_nat k * 1) with 1 by lia.
  rewrite Z.mod_small; lia.
Qed.

(** X1: line entry returns the number of the line as edited.  When the bytes
    already received hold a line end that finds the line non-empty, and the
    clock never jumps by the timeout between two readings, [readInputLine]
    returns the 16-bit value of the digits that [line_scan] leaves (accepted
    digits in order, a backspace dropping the last one, at most maxLen-1
    kept), and hands the bytes behind that line end on to the next reader. *)
Theorem line_entry_returns_edited_line (E : Env) (fuel : nat) (buffer : list Z)
    (maxLen : Z) (isHex : bool) (timeout_ms : Z) (s : State)
    (cs extra line rest : list Z) :
  clock_steady E timeout_ms ->
  maxLen <= 255 -> maxLen <= Z.of_nat (length buffer) ->
  rx s = cs ++ extra ->
  line_scan maxLen isHex [] cs = Some (line, rest) ->
  (length cs <= fuel)%nat ->
  let r := readInputLine E fuel buffer maxLen isHex timeout_ms s in
  outcome r = Done (uint16 (strtol (line ++ [0]) (if isHex then 16 else 10))) /\
  (exists more, rx (final r) = rest ++ extra ++ more) /\
  same_machine s (final r).
Proof.
  intros Hsteady Hmax Hcap Hrx Hscan Hfuel. cbv zeta.
  unfold readInputLine. rewrite bind_millis.
  destruct (readInputLine_loop_scan E maxLen isHex timeout_ms Hsteady Hmax
              cs [] line rest fuel buffer 0 (ticks s) (set_ticks (S (ticks s)) s) extra
              Hscan Hrx) as (Ho & Hr & Hm); [| reflexivity | exact Hfuel |].
  - split; [reflexivity |]. split; [reflexivity |]. split; [left; reflexivity | exact Hcap].
  - split; [exact Ho |]. split; [exact Hr | exact Hm].
Qed.

Lemma line_entry_returns_edited_line_witness :
  let s := received (codes "12" ++ [CH_BS] ++ codes "Ax" ++ [CH_CR; CH_LF]) in
  line_scan 10 true [] (rx s) = Some (codes "1A", [CH_LF]) /\
  outcome (readHexInput (typed []) 7 s) = Done 0x1A.
Proof.
  cbv zeta.
  assert (Hscan : line_scan 10 true []
            (codes "12" ++ [CH_BS] ++ codes "Ax" ++ [CH_CR; CH_LF]) =
          Some (codes "1A", [CH_LF])) by reflexivity.
  split; [exact Hscan |].
  refine (proj1 (line_entry_returns_edited_line (typed []) 7 fresh_buf 10 true
                   INPUT_TIMEOUT_MS
                   (received (codes "12" ++ [CH_BS] ++ codes "Ax" ++ [CH_CR; CH_LF]))
                   _ [] _ _ _ _ _ _ Hscan _)).
  - apply typed_clock_steady. unfold INPUT_TIMEOUT_MS. lia.
  - lia.
  - simpl. lia.
  - symmetry. apply app_nil_r.
  - simpl. lia.
Defined.

Lemma strtol_kept isHex (kept : list Z) :
  Forall (fun c => accepted isHex c = true) kept ->
  strtol (kept ++ [0]) (if isHex then 16 else 10) =
  Z.min (digits_value (if isHex then 16 else 10) kept) LONG_MAX.
Proof.
  intros H. unfold strtol, digits_value. rewrite (strtol_digits_value isHex kept H).
  reflexivity.
Qed.

(** X2: typing digits and Enter gives their number.  With accepted digits ds
    and then a line end at the head of the receive buffer, [readInputLine]
    returns the value of the first maxLen-1 digits in the base of its mode
    (all of them when they fit), cut off at LONG_MAX as strtol does and then
    reduced to 16 bits; the bytes behind the line end stay for the next
    reader. *)
Theorem typed_digits_return_their_value (E : Env) (fuel : nat) (buffer : list Z)
    (maxLen : Z) (isHex : bool) (timeout_ms : Z) (s : State)
    (ds : list Z) (e : Z) (extra : list Z) :
  clock_steady E timeout_ms ->
  2 <= maxLen <= 255 -> maxLen <= Z.of_nat (length buffer) ->
  rx s = ds ++ e :: extra ->
  Forall (fun c => accepted isHex c = true) ds -> ds <> [] ->
  e = CH_LF \/ e = CH_CR ->
  (length ds < fuel)%nat ->
  let base := if isHex then 16 else 10 in
  let kept := take (Z.to_nat (maxLen - 1)) ds in
  let r := readInputLine E fuel buffer maxLen isHex timeout_ms s in
  outcome r = Done (uint16 (Z.min (digits_value base kept) LONG_MAX)) /\
  (exists more, rx (final r) = extra ++ more).
Proof.
  intros Hsteady Hmax Hcap Hrx Hds Hne He Hfuel. cbv zeta.
  assert (Hend : (uint8 e =? CH_LF) || (uint8 e =? CH_CR) = true)
    by (destruct He as [-> | ->]; reflexivity).
  assert (Hnek : take (Z.to_nat (maxLen - 1)) ([] ++ ds) <> []).
  { destruct ds as [|d ds]; [contradiction |].
    replace (Z.to_nat (maxLen - 1)) with (S (Z.to_nat (maxLen - 2))) by lia. discriminate. }
  pose proof (line_scan_digits maxLen isHex ds Hds [] e [] Hend
                ltac:(simpl; lia) Hnek) as Hscan.
  cbn [app] in Hscan.
  unfold readInputLine. rewrite bind_millis.
  destruct (readInputLine_loop_scan E maxLen isHex timeout_ms Hsteady (proj2 Hmax)
              (ds ++ [e]) [] _ [] fuel buffer 0 (ticks s) (set_ticks (S (ticks s)) s)
              extra Hscan) as (Ho & Hr & _).
  - cbn [rx set_ticks]. rewrite Hrx, <- app_assoc. reflexivity.
  - split; [reflexivity |]. split; [reflexivity |]. split; [left; reflexivity | exact Hcap].
  - reflexivity.
  - rewrite length_app. simpl. lia.
  - split; [| exact Hr].
    rewrite Ho, strtol_kept; [reflexivity |].
    apply Forall_take. exact Hds.
Qed.

Lemma typed_digits_return_their_value_witness :
  let s := received (codes "10100" ++ [CH_LF]) in
  Forall (fun c => accepted true c = true) (codes "10100") /\
  outcome (readHexInput (typed []) 6 s) = Done 0x0100.
Proof.
  cbv zeta.
  assert (Hds : Forall (fun c => accepted true c = true) (codes "10100"))
    by (repeat constructor).
  split; [exact Hds |].
  refine (proj1 (typed_digits_return_their_value (typed []) 6 fresh_buf 10 true
                   INPUT_TIMEOUT_MS (received (codes "10100" ++ [CH_LF]))
                   (codes "10100") CH_LF [] _ _ _ eq_refl Hds _ _ _)).
  - apply typed_clock_steady. unfold INPUT_TIMEOUT_MS. lia.
  - lia.
  - simpl. lia.
  - discriminate.
  - left. reflexivity.
  - simpl. lia.
Defined.

(** X3: a hexadecimal entry above 0x7FFFFFFF cannot be told from a timeout.
    strtol cuts the number off at LONG_MAX, whose low 16 bits are 0xFFFF, so
    [readHexInput] returns the timeout sentinel for every such entry of up to
    nine digits. *)
Theorem large_hex_entry_reads_as_timeout (E : Env) (fuel : nat) (s : State)
    (ds : list Z) (e : Z) (extra : list Z) :
  clock_steady E INPUT_TIMEOUT_MS ->
  rx s = ds ++ e :: extra ->
  Forall (fun c => accepted true c = true) ds ->
  (length ds <= 9)%nat ->
  LONG_MAX <= digits_value 16 ds ->
  e = CH_LF \/ e = CH_CR ->
  (length ds < fuel)%nat ->
  outcome (readHexInput E fuel s) = Done INPUT_TIMEOUT_SENTINEL.
Proof.
  intros Hsteady Hrx Hds Hlen Hbig He Hfuel.
  assert (Hend : (uint8 e =? CH_LF) || (uint8 e =? CH_CR) = true)
    by (destruct He as [-> | ->]; reflexivity).
  assert (Hne : ds <> []).
  { intros ->. unfold digits_value, LONG_MAX in Hbig. simpl in Hbig. lia. }
  assert (Hnek : take (Z.to_nat (10 - 1)) ([] ++ ds) <> []).
  { destruct ds as [|d ds]; [contradiction | discriminate]. }
  pose proof (line_scan_digits 10 true ds Hds [] e [] Hend ltac:(simpl; lia) Hnek) as Hscan.
  cbn [app] in Hscan. rewrite take_ge in Hscan by (simpl; lia).
  unfold readHexInput, readInputLine. rewrite bind_millis.
  destruct (readInputLine_loop_scan E 10 true INPUT_TIMEOUT_MS Hsteady ltac:(lia)
              (ds ++ [e]) [] _ [] fuel fresh_buf 0 (ticks s) (set_ticks (S (ticks s)) s)
              extra Hscan) as (Ho & _ & _).
  - cbn [rx set_ticks]. rewrite Hrx, <- app_assoc. reflexivity.
  - split; [reflexivity |]. split; [reflexivity |].
    split; [left; reflexivity | simpl; lia].
  - reflexivity.
  - rewrite length_app. simpl. lia.
  - rewrite Ho, (strtol_kept true ds Hds). cbv iota.
    rewrite Z.min_r by exact Hbig. reflexivity.
Qed.

Lemma large_hex_entry_reads_as_timeout_witness :
  let s := received (codes "80000000" ++ [CH_LF]) in
  LONG_MAX <= digits_value 16 (codes "80000000") /\
  outcome (readHexInput (typed []) 9 s) = Done INPUT_TIMEOUT_SENTINEL.
Proof.
  cbv zeta.
  assert (Hbig : LONG_MAX <= digits_value 16 (codes "80000000"))
    by (vm_compute; discriminate).
  split; [exact Hbig |].
  refine (large_hex_entry_reads_as_timeout (typed []) 9
            (received (codes "80000000" ++ [CH_LF])) (codes "80000000") CH_LF []
            _ eq_refl _ _ Hbig _ _).
  - apply typed_clock_steady. unfold INPUT_TIMEOUT_MS. lia.
  - repeat constructor.
  - simpl. lia.
  - left. reflexivity.
  - simpl. lia.
Defined.

(** ** When line entry gives up *)

Section LineTimeout.

Variable E : Env.
Variable maxLen : Z.
Variable isHex : bool.
Variable timeout_ms : Z.

Lemma line_loop_waits buffer pos t0 : forall fuel s,
  line_dead E s -> (t0 < ticks s)%nat ->
  (forall j, (ticks s - S t0 <= j < ticks s - S t0 + fuel)%nat -> elapsed E t0 j < timeout_ms) ->
  let r := readInputLine_loop E fuel maxLen isHex timeout_ms buffer pos
             (uint32 (env_millis E t0)) s in
  outcome r = Hang /\ events r = [].
Proof.
  induction fuel as [|fuel IH]; intros s Hdead Ht Hearly; cbv zeta;
    [split; reflexivity |].
  cbn [readInputLine_loop]. rewrite bind_millis.
  assert (He : elapsed E t0 (ticks s - S t0) < timeout_ms) by (apply Hearly; lia).
  unfold elapsed in He. replace (S t0 + (ticks s - S t0))%nat with (ticks s) in He by lia.
  destruct (Z.ltb_spec (uint32 (uint32 (env_millis E (ticks s)) - uint32 (env_millis E t0)))
              timeout_ms) as [_ | ?]; [| lia].
  assert (Hdead1 : line_dead E (set_ticks (S (ticks s)) s)) by exact Hdead.
  rewrite (bind_poll_dead E _ _ Hdead1).
  change (negb (0 =? 0)) with false. cbv iota.
  apply IH.
  - apply (line_dead_poll E _ Hdead1).
  - simpl. lia.
  - intros j Hj. apply Hearly. simpl in Hj. lia.
Qed.

Lemma line_loop_gives_up buffer pos t0 (n : nat) : forall m s,
  line_dead E s -> (t0 < ticks s)%nat ->
  (forall j, (ticks s - S t0 <= j < ticks s - S t0 + n)%nat -> elapsed E t0 j < timeout_ms) ->
  timeout_ms <= elapsed E t0 (ticks s - S t0 + n) ->
  let r := readInputLine_loop E (S n + m) maxLen isHex timeout_ms buffer pos
             (uint32 (env_millis E t0)) s in
  outcome r = Done INPUT_TIMEOUT_SENTINEL /\
  events r = [Println TIMEOUT_INPUT] /\
  ticks (final r) = (ticks s + S n)%nat /\
  same_machine s (final r).
Proof.
  induction n as [|n IH]; intros m s Hdead Ht Hearly Hlate; cbv zeta.
  - cbn [readInputLine_loop Nat.add]. rewrite bind_millis.
    unfold elapsed in Hlate.
    replace (S t0 + (ticks s - S t0 + 0))%nat with (ticks s) in Hlate by lia.
    destruct (Z.ltb_spec (uint32 (uint32 (env_millis E (ticks s)) - uint32 (env_millis E t0)))
                timeout_ms) as [? | _]; [lia |].
    rewrite bind_emit. run_proj.
    split; [reflexivity |]. split; [reflexivity |].
    split; [simpl; lia | repeat split].
  - cbn [readInputLine_loop Nat.add]. rewrite bind_millis.
    assert (He : elapsed E t0 (ticks s - S t0) < timeout_ms) by (apply Hearly; lia).
    unfold elapsed in He. replace (S t0 + (ticks s - S t0))%nat with (ticks s) in He by lia.
    destruct (Z.ltb_spec (uint32 (uint32 (env_millis E (ticks s)) - uint32 (env_millis E t0)))
                timeout_ms) as [_ | ?]; [| lia].
    assert (Hdead1 : line_dead E (set_ticks (S (ticks s)) s)) by exact Hdead.
    rewrite (bind_poll_dead E _ _ Hdead1).
    change (negb (0 =? 0)) with false. cbv iota.
    destruct (IH m (set_serial (S (polls (set_ticks (S (ticks s)) s))) []
                     (set_ticks (S (ticks s)) s)))
      as (Ho & Hev & Hti & Hm).
    + apply (line_dead_poll E _ Hdead1).
    + simpl. lia.
    + intros j Hj. apply Hearly. simpl in Hj. lia.
    + simpl ticks. replace (S (ticks s) - S t0 + n)%nat with (ticks s - S t0 + S n)%nat by lia.
      exact Hlate.
    + split; [exact Ho |]. split; [exact Hev |].
      split; [etransitivity; [exact Hti | simpl; lia] |].
      eapply same_machine_trans; [| exact Hm]. repeat split.
Qed.

End LineTimeout.

(** X4: line entry gives up exactly on time.  On a line that stays silent,
    let n be the first reading of millis() after the start that shows
    timeout_ms or more elapsed.  Then [readInputLine] is still waiting, with
    nothing printed, as long as it has made at most n turns, and with more
    turns it returns the sentinel 0xFFFF at that very reading, having printed
    only the timeout message and left memory, snapshot and registers alone. *)
Theorem line_entry_times_out_exactly (E : Env) (n m : nat) (buffer : list Z)
    (maxLen : Z) (isHex : bool) (timeout_ms : Z) (s : State) :
  line_dead E s ->
  (forall j, (j < n)%nat -> elapsed E (ticks s) j < timeout_ms) ->
  timeout_ms <= elapsed E (ticks s) n ->
  (forall fuel, (fuel <= n)%nat ->
     outcome (readInputLine E fuel buffer maxLen isHex timeout_ms s) = Hang /\
     events (readInputLine E fuel buffer maxLen isHex timeout_ms s) = [])
  /\ (let r := readInputLine E (S n + m) buffer maxLen isHex timeout_ms s in
      outcome r = Done INPUT_TIMEOUT_SENTINEL /\
      events r = [Println TIMEOUT_INPUT] /\
      ticks (final r) = (ticks s + n + 2)%nat /\
      same_machine s (final r)).
Proof.
  intros Hdead Hearly Hlate. split.
  - intros fuel Hfuel. unfold readInputLine. rewrite bind_millis.
    apply line_loop_waits; [exact Hdead | simpl; lia |].
    intros j Hj. apply Hearly. simpl in Hj. lia.
  - cbv zeta. unfold readInputLine. rewrite bind_millis.
    destruct (line_loop_gives_up E maxLen isHex timeout_ms buffer 0 (ticks s) n m
                (set_ticks (S (ticks s)) s)) as (Ho & Hev & Hti & Hm).
    + exact Hdead.
    + simpl. lia.
    + intros j Hj. apply Hearly. simpl in Hj. lia.
    + simpl ticks. replace (S (ticks s) - S (ticks s) + n)%nat with n by lia. exact Hlate.
    + split; [exact Ho |]. split; [exact Hev |].
      split; [etransitivity; [exact Hti | simpl; lia] |].
      eapply same_machine_trans; [| exact Hm]. repeat split.
Qed.

Lemma line_entry_times_out_exactly_witness :
  line_dead (script_env 1000 []) init_state /\
  outcome (readHexInput (script_env 1000 []) 14 init_state) = Hang /\
  outcome (readHexInput (script_env 1000 []) 15 init_state) = Done INPUT_TIMEOUT_SENTINEL.
Proof.
  assert (Hdead : line_dead (script_env 1000 []) init_state).
  { split; [reflexivity |]. intros k _. reflexivity. }
  assert (Hearly : forall j, (j < 14)%nat ->
            elapsed (script_env 1000 []) (ticks init_state) j < INPUT_TIMEOUT_MS).
  { intros j Hj. do 14 (destruct j as [|j]; [vm_compute; reflexivity |]). lia. }
  assert (Hlate : INPUT_TIMEOUT_MS <= elapsed (script_env 1000 []) (ticks init_state) 14).
  { vm_compute. discriminate. }
  split; [exact Hdead |].
  destruct (line_entry_times_out_exactly (script_env 1000 []) 14 0 fresh_buf 10 true
              INPUT_TIMEOUT_MS init_state Hdead Hearly Hlate) as [Hwait Hdone].
  split; [exact (proj1 (Hwait 14%nat (le_n 14))) | exact (proj1 Hdone)].
Defined.

(** ** The timeout of line entry measures silence *)

Lemma ms_clock_steady (E : Env) timeout_ms :
  (forall k, env_millis E k = Z.of_nat k * 1) -> 1 < timeout_ms ->
  clock_steady E timeout_ms.
Proof.
  intros Hclock Ht k. rewrite !Hclock. unfold uint32.
  rewrite Zminus_mod_idemp_l, Zminus_mod_idemp_r.
  replace (Z.of_nat (S k) * 1 - Z.of_nat k * 1) with 1 by lia.
  rewrite Z.mod_small; lia.
Qed.

Lemma never_receives_poll (E : Env) s P :
  never_receives E s P ->
  Forall (fun r => P (uint8 r) = false) (rx s ++ env_serial E (polls s)) /\
  forall q, Forall (fun r => P (uint8 r) = false) q ->
            never_receives E (set_serial (S (polls s)) q s) P.
Proof.
  intros [Hrx Hfut]. split.
  - apply Forall_app; split; [exact Hrx | apply Hfut; lia].
  - intros q Hq. split; [exact Hq |]. intros k Hk. apply Hfut. simpl in Hk. lia.
Qed.

Lemma readInputLine_char_junk maxLen isHex buffer c s :
  accepted isHex c = false ->
  readInputLine_char maxLen isHex buffer 0 c s = (Done (buffer, 0), s, []).
Proof.
  intros Hacc. unfold readInputLine_char.
  destruct ((c =? CH_BS) || (c =? CH_DEL)); [reflexivity |].
  fold (accepted isHex c). rewrite Hacc.
  destruct (0 <? maxLen - 1); reflexivity.
Qed.

Section Junk.

Variable E : Env.
Variable maxLen : Z.
Variable isHex : bool.
Variable timeout_ms : Z.
Hypothesis steady : clock_steady E timeout_ms.

Lemma line_loop_kept_waiting buffer : forall fuel k s,
  ticks s = S k ->
  always_receives E s ->
  never_receives E s (accepted isHex) ->
  let r := readInputLine_loop E fuel maxLen isHex timeout_ms buffer 0
             (uint32 (env_millis E k)) s in
  outcome r = Hang /\ Forall (fun e => is_serial_read e = true) (events r).
Proof.
  induction fuel as [|fuel IH]; intros k s Hticks Halways Hnever; cbv zeta;
    [split; [reflexivity | constructor] |].
  cbn [readInputLine_loop]. rewrite bind_millis, Hticks.
  destruct (Z.ltb_spec (uint32 (uint32 (env_millis E (S k)) - uint32 (env_millis E k)))
              timeout_ms) as [_ | Hlate]; [| pose proof (steady k); lia].
  rewrite bind_poll. cbn [rx set_ticks polls].
  destruct (never_receives_poll E s _ Hnever) as [Hall Hkeep].
  destruct (rx s ++ env_serial E (polls s)) as [|c q] eqn:Hq.
  { exfalso. apply app_eq_nil in Hq. destruct Hq as [_ Hq].
    exact (Halways (polls s) (le_n _) Hq). }
  change (negb (Z.of_nat (length (c :: q)) =? 0)) with (negb (Z.pos (Pos.of_succ_nat (length q)) =? 0)).
  cbn [Z.eqb negb].
  erewrite bind_read by (cbn [rx set_serial]; reflexivity).
  run_proj. cbv zeta.
  apply Forall_cons in Hall. destruct Hall as [Hc Hq'].
  set (s1 := set_serial (polls _) q _).
  assert (Hnext : let r := (startTime' <- millis E ;;
                            readInputLine_loop E fuel maxLen isHex timeout_ms buffer 0
                              startTime') s1 in
                  outcome r = Hang /\ Forall (fun e => is_serial_read e = true) (events r)).
  { cbv zeta. rewrite bind_millis.
    apply IH.
    - subst s1. reflexivity.
    - intros j Hj. apply Halways. subst s1. simpl in Hj. lia.
    - apply (Hkeep q Hq'). }
  cbv zeta in Hnext.
  destruct ((uint8 c =? CH_LF) || (uint8 c =? CH_CR)).
  - change (0 <? 0) with false. cbv iota.
    destruct Hnext as [Ho Hev]. split; [exact Ho |].
    constructor; [reflexivity | exact Hev].
  - rewrite (bind_pure _ _ _ _ _ (readInputLine_char_junk maxLen isHex buffer _ s1 Hc)).
    cbn [fst snd app]. run_proj.
    destruct Hnext as [Ho Hev]. split; [exact Ho |].
    constructor; [reflexivity | exact Hev].
Qed.

End Junk.

(** X5: the timeout of line entry measures silence, not the age of the
    prompt.  If the clock never jumps by the timeout between two readings,
    some byte arrives before every poll and none of them is a digit of the
    mode, then [readInputLine] neither returns nor times out, however long it
    runs: every byte (line ends on the empty line, backspaces and rejected
    characters alike) restarts the timeout, and nothing is echoed. *)
Theorem junk_keeps_line_entry_waiting (E : Env) (fuel : nat) (buffer : list Z)
    (maxLen : Z) (isHex : bool) (timeout_ms : Z) (s : State) :
  clock_steady E timeout_ms ->
  always_receives E s ->
  never_receives E s (accepted isHex) ->
  let r := readInputLine E fuel buffer maxLen isHex timeout_ms s in
  outcome r = Hang /\ Forall (fun e => is_serial_read e = true) (events r).
Proof.
  intros Hsteady Halways Hnever. cbv zeta.
  unfold readInputLine. rewrite bind_millis.
  apply (line_loop_kept_waiting E maxLen isHex timeout_ms Hsteady buffer fuel (ticks s));
    [reflexivity | exact Halways | exact Hnever].
Qed.

Lemma junk_keeps_line_entry_waiting_witness :
  always_receives (babbling 1 120) init_state /\
  never_receives (babbling 1 120) init_state (accepted true) /\
  outcome (readHexInput (babbling 1 120) 1000 init_state) = Hang.
Proof.
  assert (Ha : always_receives (babbling 1 120) init_state) by (intros k _; discriminate).
  assert (Hn : never_receives (babbling 1 120) init_state (accepted true)).
  { split; [constructor |]. intros k _. repeat constructor. }
  split; [exact Ha |]. split; [exact Hn |].
  refine (proj1 (junk_keeps_line_entry_waiting (babbling 1 120) 1000 fresh_buf 10 true
                   INPUT_TIMEOUT_MS init_state _ Ha Hn)).
  apply ms_clock_steady; [reflexivity | unfold INPUT_TIMEOUT_MS; lia].
Defined.

(** ** The menu *)

Lemma displayMenu_run s : displayMenu s = (Done tt, s, menu_trace).
Proof. reflexivity. Qed.

Section Menu.

Variable E : Env.
Variable L : Symbols.

(** One turn of the menu wait that is in time and finds no command key:
    the bytes at hand are polled, one of them (if any) is read and dropped,
    and the wait goes on. *)
Lemma menu_wait_turn t0 fuel s :
  never_receives E s is_command_key ->
  uint32 (uint32 (env_millis E (ticks s)) - uint32 (env_millis E t0)) < INPUT_TIMEOUT_MS ->
  exists q swallowed,
    Forall (fun r => is_command_key (uint8 r) = false) q /\
    Forall (fun e => is_serial_read e = true) swallowed /\
    let s' := set_serial (S (polls s)) q (set_ticks (S (ticks s)) s) in
    menu_wait E (S fuel) (uint32 (env_millis E t0)) s =
    (outcome (menu_wait E fuel (uint32 (env_millis E t0)) s'),
     final (menu_wait E fuel (uint32 (env_millis E t0)) s'),
     swallowed ++ events (menu_wait E fuel (uint32 (env_millis E t0)) s')).
Proof.
  intros Hnever Hin. cbn [menu_wait]. rewrite bind_millis.
  destruct (Z.ltb_spec (uint32 (uint32 (env_millis E (ticks s)) - uint32 (env_millis E t0)))
              INPUT_TIMEOUT_MS) as [_ | ?]; [| lia].
  rewrite bind_poll. cbn [rx set_ticks polls].
  destruct (never_receives_poll E s _ Hnever) as [Hall _].
  destruct (rx s ++ env_serial E (polls s)) as [|c q] eqn:Hq.
  - change (negb (Z.of_nat (length (@nil Z)) =? 0)) with false. cbv iota.
    exists [], []. split; [constructor |]. split; [constructor |].
    cbv zeta. cbn [app]. apply run_eta.
  - change (negb (Z.of_nat (length (c :: q)) =? 0))
      with (negb (Z.pos (Pos.of_succ_nat (length q)) =? 0)).
    cbn [Z.eqb negb].
    erewrite bind_read by (cbn [rx set_serial]; reflexivity).
    run_proj. cbv zeta.
    apply Forall_cons in Hall. destruct Hall as [Hc Hq'].
    unfold is_command_key in Hc. rewrite Hc.
    exists q, [SerialRead c]. split; [exact Hq' |].
    split; [repeat constructor | reflexivity].
Qed.

Lemma menu_wait_waits t0 : forall fuel s,
  never_receives E s is_command_key -> (t0 < ticks s)%nat ->
  (forall j, (ticks s - S t0 <= j < ticks s - S t0 + fuel)%nat ->
             elapsed E t0 j < INPUT_TIMEOUT_MS) ->
  let r := menu_wait E fuel (uint32 (env_millis E t0)) s in
  outcome r = Hang /\ Forall (fun e => is_serial_read e = true) (events r).
Proof.
  induction fuel as [|fuel IH]; intros s Hnever Ht Hearly; cbv zeta.
  { split; [reflexivity | constructor]. }
  assert (He : elapsed E t0 (ticks s - S t0) < INPUT_TIMEOUT_MS) by (apply Hearly; lia).
  unfold elapsed in He. replace (S t0 + (ticks s - S t0))%nat with (ticks s) in He by lia.
  destruct (menu_wait_turn t0 fuel s Hnever He) as (q & sw & Hq & Hsw & Hrun).
  cbv zeta in Hrun. rewrite Hrun. run_proj.
  destruct (IH (set_serial (S (polls s)) q (set_ticks (S (ticks s)) s))) as [Ho Hev].
  - destruct (never_receives_poll E s _ Hnever) as [_ Hkeep]. apply (Hkeep q Hq).
  - simpl. lia.
  - intros j Hj. apply Hearly. simpl in Hj. lia.
  - split; [exact Ho | apply Forall_app; split; assumption].
Qed.

Lemma menu_wait_gives_up t0 (n : nat) : forall m s,
  never_receives E s is_command_key -> (t0 < ticks s)%nat ->
  (forall j, (ticks s - S t0 <= j < ticks s - S t0 + n)%nat ->
             elapsed E t0 j < INPUT_TIMEOUT_MS) ->
  INPUT_TIMEOUT_MS <= elapsed E t0 (ticks s - S t0 + n) ->
  let r := menu_wait E (S n + m) (uint32 (env_millis E t0)) s in
  outcome r = Done None /\
  Forall (fun e => is_serial_read e = true) (events r) /\
  ticks (final r) = (ticks s + S n)%nat /\
  same_machine s (final r).
Proof.
  induction n as [|n IH]; intros m s Hnever Ht Hearly Hlate; cbv zeta.
  - cbn [menu_wait Nat.add]. rewrite bind_millis.
    unfold elapsed in Hlate.
    replace (S t0 + (ticks s - S t0 + 0))%nat with (ticks s) in Hlate by lia.
    destruct (Z.ltb_spec (uint32 (uint32 (env_millis E (ticks s)) - uint32 (env_millis E t0)))
                INPUT_TIMEOUT_MS) as [? | _]; [lia |].
    split; [reflexivity |]. split; [constructor |].
    split; [simpl; lia | repeat split].
  - assert (He : elapsed E t0 (ticks s - S t0) < INPUT_TIMEOUT_MS) by (apply Hearly; lia).
    unfold elapsed in He. replace (S t0 + (ticks s - S t0))%nat with (ticks s) in He by lia.
    destruct (menu_wait_turn t0 (S n + m) s Hnever He) as (q & sw & Hq & Hsw & Hrun).
    cbv zeta in Hrun. change (S (S n) + m)%nat with (S (S n + m)). rewrite Hrun. run_proj.
    destruct (IH m (set_serial (S (polls s)) q (set_ticks (S (ticks s)) s)))
      as (Ho & Hev & Hti & Hm).
    + destruct (never_receives_poll E s _ Hnever) as [_ Hkeep]. apply (Hkeep q Hq).
    + simpl. lia.
    + intros j Hj. apply Hearly. simpl in Hj. lia.
    + simpl ticks.
      replace (S (ticks s) - S t0 + n)%nat with (ticks s - S t0 + S n)%nat by lia.
      exact Hlate.
    + split; [exact Ho |]. split; [apply Forall_app; split; assumption |].
      split; [etransitivity; [exact Hti | simpl; lia] |].
      eapply same_machine_trans; [| exact Hm]. repeat split.
Qed.

Lemma drain_done : forall fuel s,
  outcome (drain E fuel s) = Done tt -> rx (final (drain E fuel s)) = [].
Proof.
  induction fuel as [|fuel IH]; intros s; cbn [drain]; [discriminate |].
  rewrite bind_poll.
  destruct (rx s ++ env_serial E (polls s)) as [|c q] eqn:Hq.
  - intros _. reflexivity.
  - change (negb (Z.of_nat (length (c :: q)) =? 0))
      with (negb (Z.pos (Pos.of_succ_nat (length q)) =? 0)).
    cbn [Z.eqb negb].
    erewrite bind_read by (cbn [rx set_serial]; reflexivity).
    run_proj. apply IH.
Qed.

End Menu.

(** X6: the menu's timeout is absolute and exact.  As long as no byte from
    '1' to '7' is ever received, let n be the first reading of millis()
    after the menu was shown that shows 15000 ms or more elapsed.  Then
    [loop()] has printed the menu, is still waiting and has only swallowed
    bytes without echo, as long as its wait has made at most n turns; with
    more turns it prints the timeout message and returns at that very
    reading: no command is run and memory, snapshot and registers are
    untouched.  Other keys do not restart this timeout. *)
Theorem menu_times_out_despite_other_keys (E : Env) (L : Symbols) (n m : nat)
    (s : State) :
  never_receives E s is_command_key ->
  (forall j, (j < n)%nat -> elapsed E (ticks s) j < INPUT_TIMEOUT_MS) ->
  INPUT_TIMEOUT_MS <= elapsed E (ticks s) n ->
  (forall fuel, (fuel <= n)%nat ->
     outcome (loop E L fuel s) = Hang /\
     exists swallowed,
       events (loop E L fuel s) = menu_trace ++ swallowed /\
       Forall (fun e => is_serial_read e = true) swallowed)
  /\ (let r := loop E L (S n + m) s in
      outcome r = Done tt /\
      (exists swallowed,
         events r = menu_trace ++ swallowed ++ [Println TIMEOUT_MENU] /\
         Forall (fun e => is_serial_read e = true) swallowed) /\
      ticks (final r) = (ticks s + n + 2)%nat /\
      same_machine s (final r)).
Proof.
  intros Hnever Hearly Hlate. split.
  - intros fuel Hfuel. unfold loop.
    rewrite (bind_pure _ _ _ _ _ (displayMenu_run s)), bind_millis.
    destruct (menu_wait_waits E (ticks s) fuel (set_ticks (S (ticks s)) s))
      as (Ho & Hev).
    + exact Hnever.
    + simpl. lia.
    + intros j Hj. apply Hearly. simpl in Hj. lia.
    + rewrite outcome_bind, events_bind, Ho. run_proj.
      split; [reflexivity |].
      exists (events (menu_wait E fuel (uint32 (env_millis E (ticks s)))
                        (set_ticks (S (ticks s)) s))).
      split; [reflexivity | exact Hev].
  - cbv zeta. unfold loop.
    rewrite (bind_pure _ _ _ _ _ (displayMenu_run s)), bind_millis.
    destruct (menu_wait_gives_up E (ticks s) n m (set_ticks (S (ticks s)) s))
      as (Ho & Hev & Hti & Hm).
    + exact Hnever.
    + simpl. lia.
    + intros j Hj. apply Hearly. simpl in Hj. lia.
    + simpl ticks. replace (S (ticks s) - S (ticks s) + n)%nat with n by lia. exact Hlate.
    + rewrite outcome_bind, final_bind, events_bind, Ho. run_proj.
      split; [reflexivity |]. split.
      * exists (events (menu_wait E (S n + m) (uint32 (env_millis E (ticks s)))
                          (set_ticks (S (ticks s)) s))).
        split; [reflexivity | exact Hev].
      * split; [etransitivity; [exact Hti | simpl; lia] |].
        eapply same_machine_trans; [| exact Hm]. repeat split.
Qed.

Lemma menu_times_out_despite_other_keys_witness :
  never_receives (babbling 1000 120) init_state is_command_key /\
  outcome (loop (babbling 1000 120) (mkSymbols 0 0 0 0 0 0 0 0 0) 14 init_state) = Hang /\
  outcome (loop (babbling 1000 120) (mkSymbols 0 0 0 0 0 0 0 0 0) 16 init_state) = Done tt /\
  ticks (final (loop (babbling 1000 120) (mkSymbols 0 0 0 0 0 0 0 0 0) 16 init_state)) =
    16%nat.
Proof.
  assert (Hn : never_receives (babbling 1000 120) init_state is_command_key).
  { split; [constructor |]. intros k _. repeat constructor. }
  assert (Hearly : forall j, (j < 14)%nat ->
            elapsed (babbling 1000 120) (ticks init_state) j < INPUT_TIMEOUT_MS).
  { intros j Hj. do 14 (destruct j as [|j]; [vm_compute; reflexivity |]). lia. }
  assert (Hlate : INPUT_TIMEOUT_MS <= elapsed (babbling 1000 120) (ticks init_state) 14).
  { vm_compute. discriminate. }
  split; [exact Hn |].
  destruct (menu_times_out_despite_other_keys (babbling 1000 120)
              (mkSymbols 0 0 0 0 0 0 0 0 0) 14 1 init_state Hn Hearly Hlate)
    as [Hwait (Hdone & _ & Hti & _)].
  split; [exact (proj1 (Hwait 14%nat (le_n 14))) |].
  split; [exact Hdone | exact Hti].
Defined.

(** X7: type-ahead is thrown away.  Whenever a turn of [loop()] that ran a
    command comes to its end, the receive buffer is empty: what was typed
    beyond the command's own input is read and dropped before the menu is
    shown again.  (A turn that ends in the menu timeout prints the timeout
    message last instead.) *)
Theorem type_ahead_is_discarded (E : Env) (L : Symbols) (fuel : nat) (s : State) :
  outcome (loop E L fuel s) = Done tt ->
  rx (final (loop E L fuel s)) = [] \/
  last (events (loop E L fuel s)) = Some (Println TIMEOUT_MENU).
Proof.
  unfold loop.
  rewrite (bind_pure _ _ _ _ _ (displayMenu_run s)), bind_millis. run_proj.
  rewrite outcome_bind, final_bind, events_bind.
  destruct (outcome (menu_wait E fuel _ _)) as [[choice|]| |]; try discriminate.
  - rewrite bind_emit. run_proj.
    rewrite outcome_bind, final_bind.
    destruct (outcome (dispatch E L fuel choice _)) as [[]| |]; try discriminate.
    intros Hdone. left. apply drain_done. exact Hdone.
  - intros _. right.
    change (events (emit (Println TIMEOUT_MENU) ?x)) with [Println TIMEOUT_MENU].
    rewrite !app_assoc. apply last_snoc.
Qed.

Lemma type_ahead_is_discarded_witness :
  outcome (loop (typed [codes "2"; codes "5"; [CH_LF]; codes "AB"; [CH_LF]; codes "zz"])
             (mkSymbols 0 0 0 0 0 0 0 0 0) 12 init_state) = Done tt /\
  rx (final (loop (typed [codes "2"; codes "5"; [CH_LF]; codes "AB"; [CH_LF]; codes "zz"])
               (mkSymbols 0 0 0 0 0 0 0 0 0) 12 init_state)) = [].
Proof.
  assert (H : outcome (loop (typed [codes "2"; codes "5"; [CH_LF]; codes "AB"; [CH_LF];
                                    codes "zz"])
                         (mkSymbols 0 0 0 0 0 0 0 0 0) 12 init_state) = Done tt)
    by (vm_compute; reflexivity).
  split; [exact H |].
  destruct (type_ahead_is_discarded _ _ _ _ H) as [Hrx | Hlast]; [exact Hrx |].
  vm_compute in Hlast. discriminate Hlast.
Defined.

(** ** What the prompts return *)

Lemma returns_bind {A B} (Q : B -> Prop) (m : M A) (f : A -> M B) :
  (forall a, returns Q (f a)) -> returns Q (bind m f).
Proof.
  intros Hf s b. rewrite outcome_bind.
  destruct (outcome (m s)) as [a| |]; [apply Hf | discriminate ..].
Qed.

Lemma returns_ret {A} (Q : A -> Prop) (a : A) : Q a -> returns Q (ret a).
Proof. intros H s b [= <-]. exact H. Qed.

Lemma uint16_range x : 0 <= uint16 x <= 0xFFFF.
Proof. unfold uint16. pose proof (Z.mod_pos_bound x 65536). lia. Qed.

Lemma readInputLine_loop_range (E : Env) fuel maxLen isHex timeout_ms :
  forall buffer pos startTime,
    returns (fun v => 0 <= v <= 0xFFFF)
            (readInputLine_loop E fuel maxLen isHex timeout_ms buffer pos startTime).
Proof.
  induction fuel as [|fuel IH]; intros buffer pos startTime; cbn [readInputLine_loop].
  - intros s a H. discriminate H.
  - apply returns_bind; intros now.
    destruct (uint32 (now - startTime) <? timeout_ms).
    2:{ apply returns_bind; intros _. apply returns_ret.
        unfold INPUT_TIMEOUT_SENTINEL. lia. }
    apply returns_bind; intros n.
    destruct (negb (n =? 0)); [| apply IH].
    apply returns_bind; intros r. cbv zeta.
    destruct ((uint8 r =? CH_LF) || (uint8 r =? CH_CR)).
    + destruct (0 <? pos).
      * apply returns_bind; intros _. apply returns_bind; intros _.
        apply returns_ret. apply uint16_range.
      * apply returns_bind; intros st. apply IH.
    + apply returns_bind; intros bp. apply returns_bind; intros st. apply IH.
Qed.

Lemma readInputLine_range (E : Env) fuel buffer maxLen isHex timeout_ms :
  returns (fun v => 0 <= v <= 0xFFFF)
          (readInputLine E fuel buffer maxLen isHex timeout_ms).
Proof.
  unfold readInputLine. apply returns_bind; intros st. apply readInputLine_loop_range.
Qed.

(** ** The flash dump *)

Lemma for_loop_pure (body : Z -> M unit) (tr : Z -> list Event) :
  (forall j s, body j s = (Done tt, s, tr j)) ->
  forall n i s, for_loop n i body s = (Done tt, s, concat (map tr (span i n))).
Proof.
  intros Hbody. induction n as [|n IH]; intros i s; cbn [for_loop span map concat].
  - reflexivity.
  - rewrite (bind_pure _ _ _ _ _ (Hbody i s)), IH. reflexivity.
Qed.

Lemma pgm_reads_of_app e1 e2 : pgm_reads_of (e1 ++ e2) = pgm_reads_of e1 ++ pgm_reads_of e2.
Proof. apply omap_app. Qed.

Lemma silent_pgm_reads evs : silent evs -> pgm_reads_of evs = [].
Proof.
  induction 1 as [|e evs He _ IH]; [reflexivity |].
  destruct e; try discriminate He; unfold pgm_reads_of in *; simpl; exact IH.
Qed.

Lemma silent_flash_reads_only evs : silent evs -> flash_reads_only evs.
Proof. intros H. eapply Forall_impl; [exact H |]. intros e He. left. exact He. Qed.

Lemma in_pgm_reads evs a v : In (PgmRead a v) evs -> In a (pgm_reads_of evs).
Proof.
  induction evs as [|e evs IH]; [intros [] |].
  intros [-> | H].
  - left. reflexivity.
  - specialize (IH H). unfold pgm_reads_of in *. simpl.
    destruct e; simpl; try exact IH. right. exact IH.
Qed.

Section FlashDump.

Variable E : Env.

Lemma flash_dump_byte_trace_reads addr i :
  pgm_reads_of (flash_dump_byte_trace E addr i) = [uint16 (addr + i)] /\
  flash_reads_only (flash_dump_byte_trace E addr i).
Proof.
  unfold flash_dump_byte_trace. cbv zeta.
  set (cur := uint16 (addr + i)).
  set (h1 := if (0 <? i) && (cur mod 1024 =? 0)
             then [Println (NL ++ "[ --- 1K BLOCK BOUNDARY --- ]")] else []).
  set (h2 := if i mod 16 =? 0
             then (if 0 <? i then [Println ""] else []) ++ hex16_trace cur ++ [Print ": "]
             else []).
  set (tl := hex8_trace (uint8 (env_flash E cur)) ++
             Print " " :: (if i mod 64 =? 63 then [Delay 1] else [])).
  assert (H1 : silent h1).
  { subst h1. destruct ((0 <? i) && (cur mod 1024 =? 0)); repeat constructor. }
  assert (H2 : silent h2).
  { subst h2. destruct (i mod 16 =? 0); [| constructor].
    apply Forall_app; split; [destruct (0 <? i); repeat constructor |].
    apply Forall_app; split; [apply silent_hex16 | repeat constructor]. }
  assert (H3 : silent tl).
  { subst tl. apply Forall_app; split; [apply silent_hex8 |].
    destruct (i mod 64 =? 63); repeat constructor. }
  split.
  - rewrite !pgm_reads_of_app, (silent_pgm_reads _ H1), (silent_pgm_reads _ H2).
    change (PgmRead cur (uint8 (env_flash E cur)) :: tl)
      with ([PgmRead cur (uint8 (env_flash E cur))] ++ tl).
    rewrite pgm_reads_of_app, (silent_pgm_reads _ H3). reflexivity.
  - apply Forall_app; split; [apply silent_flash_reads_only, H1 |].
    apply Forall_app; split; [apply silent_flash_reads_only, H2 |].
    constructor; [right; reflexivity | apply silent_flash_reads_only, H3].
Qed.

Lemma flash_dump_loop addr n : forall i s,
  for_loop n i (fun i =>
      let currentAddr := uint16 (addr + i) in
      (if (0 <? i) && (currentAddr mod 1024 =? 0) then
         emit (Println (NL ++ "[ --- 1K BLOCK BOUNDARY --- ]"))
       else ret tt) ;;;
      (if i mod 16 =? 0 then
         (if 0 <? i then emit (Println "") else ret tt) ;;;
         printHex16 currentAddr ;;;
         emit (Print ": ")
       else ret tt) ;;;
      (val <- pgm_read_byte E currentAddr ;; printHex8 val) ;;;
      emit (Print " ") ;;;
      if i mod 64 =? 63 then emit (Delay 1) else ret tt) s =
  (Done tt, s, concat (map (flash_dump_byte_trace E addr) (span i n))).
Proof.
  apply for_loop_pure. intros j s. cbv zeta. unfold flash_dump_byte_trace. cbv zeta.
  set (cur := uint16 (addr + j)).
  assert (H1 : (if (0 <? j) && (cur mod 1024 =? 0)
                then emit (Println (NL ++ "[ --- 1K BLOCK BOUNDARY --- ]"))
                else ret tt) s =
               (Done tt, s, if (0 <? j) && (cur mod 1024 =? 0)
                            then [Println (NL ++ "[ --- 1K BLOCK BOUNDARY --- ]")] else [])).
  { destruct ((0 <? j) && (cur mod 1024 =? 0)); reflexivity. }
  assert (H2 : (if j mod 16 =? 0
                then (if 0 <? j then emit (Println "") else ret tt) ;;;
                     printHex16 cur ;;; emit (Print ": ")
                else ret tt) s =
               (Done tt, s, if j mod 16 =? 0
                            then (if 0 <? j then [Println ""] else []) ++
                                 hex16_trace cur ++ [Print ": "]
                            else [])).
  { destruct (j mod 16 =? 0); [| reflexivity].
    assert (H0 : (if 0 <? j then emit (Println "") else ret tt) s =
                 (Done tt, s, if 0 <? j then [Println ""] else []))
      by (destruct (0 <? j); reflexivity).
    rewrite (bind_pure _ _ _ _ _ H0), (bind_pure _ _ _ _ _ (printHex16_run _ _)).
    reflexivity. }
  assert (H3 : (val <- pgm_read_byte E cur ;; printHex8 val) s =
               (Done tt, s, PgmRead cur (uint8 (env_flash E cur)) ::
                            hex8_trace (uint8 (env_flash E cur)))).
  { rewrite (bind_pure _ _ s (uint8 (env_flash E cur))
                       [PgmRead cur (uint8 (env_flash E cur))] eq_refl).
    rewrite printHex8_run. reflexivity. }
  rewrite (bind_pure _ _ _ _ _ H1), (bind_pure _ _ _ _ _ H2), (bind_pure _ _ _ _ _ H3).
  rewrite bind_emit.
  destruct (j mod 64 =? 63); reflexivity.
Qed.

Lemma concat_traces_reads addr n : forall i,
  pgm_reads_of (concat (map (flash_dump_byte_trace E addr) (span i n))) =
    map (fun j => uint16 (addr + j)) (span i n) /\
  flash_reads_only (concat (map (flash_dump_byte_trace E addr) (span i n))).
Proof.
  induction n as [|n IH]; intros i; cbn [span map concat].
  - split; [reflexivity | constructor].
  - destruct (flash_dump_byte_trace_reads addr i) as [Hr Hh].
    destruct (IH (i + 1)) as [Hr' Hh'].
    rewrite pgm_reads_of_app, Hr, Hr'.
    split; [reflexivity | apply Forall_app; split; assumption].
Qed.

(** The dump proper: a length other than the timeout sentinel is never
    refused; the dump reads [len] bytes from [addr] on, the address wrapping
    at 16 bits. *)
Lemma flash_dump_run addr len s :
  0 <= addr <= 0xFFFF -> 0 <= len <= 0xFFFF ->
  final (flash_dump E addr len s) = s /\
  flash_reads_only (events (flash_dump E addr len s)) /\
  (len = INPUT_TIMEOUT_SENTINEL ->
     outcome (flash_dump E addr len s) = Break /\
     events (flash_dump E addr len s) = []) /\
  (len <> INPUT_TIMEOUT_SENTINEL ->
     outcome (flash_dump E addr len s) = Done tt /\
     pgm_reads_of (events (flash_dump E addr len s)) =
       map (fun i => uint16 (addr + i)) (span 0 (Z.to_nat len))).
Proof.
  intros Ha Hl. unfold flash_dump.
  destruct (Z.eqb_spec len INPUT_TIMEOUT_SENTINEL) as [Hs | Hs].
  { split; [reflexivity |]. split; [constructor |].
    split; [intros _; split; reflexivity | intros ?; contradiction]. }
  rewrite (uint32_small (addr + len)) by lia.
  change (uint32 (int16 (FLASH_END + 1))) with 4294934528.
  destruct (Z.ltb_spec 4294934528 (addr + len)) as [Hbig | _]; [lia |].
  rewrite bind_emit, bind_run, flash_dump_loop. run_proj.
  destruct (concat_traces_reads addr (Z.to_nat len) 0) as [Hr Hh].
  split; [reflexivity |]. split.
  { constructor; [left; reflexivity |].
    apply Forall_app; split; [exact Hh | constructor; [left; reflexivity | constructor]]. }
  split; [intros ?; contradiction |].
  intros _. split; [reflexivity |].
  change (Println "--- FLASH DUMP ---" :: ?x) with ([Println "--- FLASH DUMP ---"] ++ x).
  rewrite !pgm_reads_of_app, Hr. simpl. rewrite app_nil_r. reflexivity.
Qed.

End FlashDump.

Section FlashCase.

Variable E : Env.

Lemma loop_case_6_tail fuel addr s1 :
  0 <= addr <= 0xFFFF ->
  let r := (if addr =? INPUT_TIMEOUT_SENTINEL then brk else
            if negb (isValidFlashAddress addr) then
              emit (Println "ERROR: Address beyond Flash memory!") ;;; brk
            else
              emit (Print "Length (Dec): ") ;;;
              len <- readDecInput E fuel ;;
              flash_dump E addr len) s1 in
  same_machine s1 (final r) /\
  flash_reads_only (events r) /\
  (forall len, addr <= FLASH_END ->
     outcome (readDecInput E fuel s1) = Done len -> len <> INPUT_TIMEOUT_SENTINEL ->
     outcome r = Done tt /\
     pgm_reads_of (events r) = map (fun i => uint16 (addr + i)) (span 0 (Z.to_nat len))) /\
  (pgm_reads_of (events r) <> [] ->
     addr <= FLASH_END /\
     exists len, outcome (readDecInput E fuel s1) = Done len /\
                 len <> INPUT_TIMEOUT_SENTINEL).
Proof.
  intros Ha. cbv zeta.
  destruct (Z.eqb_spec addr INPUT_TIMEOUT_SENTINEL) as [Hsent | Hsent].
  { split; [apply same_machine_refl |]. split; [constructor |]. split.
    - intros len Hle. unfold FLASH_END, INPUT_TIMEOUT_SENTINEL in *. lia.
    - intros H. contradiction H. reflexivity. }
  destruct (isValidFlashAddress addr) eqn:Hv; cbn [negb].
  2:{ split; [apply same_machine_refl |].
      split; [constructor; [left; reflexivity | constructor] |]. split.
      - intros len Hle. apply isValidFlashAddress_range in Hle.
        rewrite Hle in Hv. discriminate Hv.
      - intros H. contradiction H. reflexivity. }
  apply isValidFlashAddress_range in Hv.
  rewrite bind_emit. run_proj.
  destruct (quiet_readDecInput E fuel s1) as [Hs2 He2].
  pose proof (readInputLine_range E fuel fresh_buf 10 false INPUT_TIMEOUT_MS s1) as Hr.
  change (readInputLine E fuel fresh_buf 10 false INPUT_TIMEOUT_MS)
    with (readDecInput E fuel) in Hr.
  rewrite outcome_bind, final_bind, events_bind.
  change (Print "Length (Dec): " :: ?x) with ([Print "Length (Dec): "] ++ x).
  destruct (outcome (readDecInput E fuel s1)) as [len| |] eqn:Ho.
  2,3: (split; [exact Hs2 |];
        split; [constructor; [left; reflexivity | apply silent_flash_reads_only, He2] |];
        split; [intros len _ Hd; discriminate Hd |];
        rewrite pgm_reads_of_app, (silent_pgm_reads _ He2);
        intros H; contradiction H; reflexivity).
  specialize (Hr len eq_refl). cbv beta in Hr.
  set (s2 := final (readDecInput E fuel s1)) in *.
  destruct (flash_dump_run E addr len s2 Ha Hr) as (Hf & Hh & Hbad & Hgood).
  rewrite Hf. split; [exact Hs2 |].
  split.
  { constructor; [left; reflexivity |].
    apply Forall_app; split; [apply silent_flash_reads_only, He2 | exact Hh]. }
  rewrite !pgm_reads_of_app, (silent_pgm_reads _ He2). cbn [pgm_reads_of omap app].
  split.
  - intros len' _ [= <-] Hne. destruct (Hgood Hne) as [Hout Hreads].
    split; [exact Hout | exact Hreads].
  - intros Hsome. split; [unfold FLASH_END; exact Hv |].
    exists len. split; [reflexivity |].
    intros Hs. destruct (Hbad Hs) as [_ Hnil]. rewrite Hnil in Hsome.
    contradiction Hsome. reflexivity.
Qed.

(** X8: case '6' (dump program memory) checks only the start address.
    Whatever is typed, the case touches neither data memory nor the
    registers and emits only console traffic and reads of program memory.
    Once the address prompt has returned an address up to FLASH_END and the
    length prompt a length other than the timeout sentinel, the case runs to
    its end and reads exactly that many bytes, at address, address+1, ...,
    wrapping at 16 bits: the span guard of line 365 never refuses, because
    its bound FLASH_END + 1 is computed in a 16-bit int.  Program memory is
    read on that path only. *)
Theorem flash_dump_reads_what_is_asked (fuel : nat) (s : State) :
  let r := loop_case_6 E fuel s in
  let s1 := final (readHexInput E fuel s) in
  same_machine s (final r) /\
  flash_reads_only (events r) /\
  (forall addr len,
     outcome (readHexInput E fuel s) = Done addr -> addr <= FLASH_END ->
     outcome (readDecInput E fuel s1) = Done len -> len <> INPUT_TIMEOUT_SENTINEL ->
     outcome r = Done tt /\
     pgm_reads_of (events r) = map (fun i => uint16 (addr + i)) (span 0 (Z.to_nat len))) /\
  (pgm_reads_of (events r) <> [] ->
     exists addr len,
       outcome (readHexInput E fuel s) = Done addr /\ addr <= FLASH_END /\
       outcome (readDecInput E fuel s1) = Done len /\ len <> INPUT_TIMEOUT_SENTINEL).
Proof.
  cbv zeta. unfold loop_case_6. rewrite bind_emit. run_proj.
  destruct (quiet_readHexInput E fuel s) as [Hs1 He1].
  pose proof (readInputLine_range E fuel fresh_buf 10 true INPUT_TIMEOUT_MS s) as Hr.
  change (readInputLine E fuel fresh_buf 10 true INPUT_TIMEOUT_MS)
    with (readHexInput E fuel) in Hr.
  rewrite outcome_bind, final_bind, events_bind.
  change (Print "Flash Byte Address (Hex): " :: ?x)
    with ([Print "Flash Byte Address (Hex): "] ++ x).
  destruct (outcome (readHexInput E fuel s)) as [addr| |] eqn:Ho.
  2,3: (split; [exact Hs1 |];
        split; [constructor; [left; reflexivity | apply silent_flash_reads_only, He1] |];
        split; [intros addr len Hd; discriminate Hd |];
        rewrite pgm_reads_of_app, (silent_pgm_reads _ He1);
        intros H; contradiction H; reflexivity).
  specialize (Hr addr eq_refl). cbv beta in Hr.
  set (s1 := final (readHexInput E fuel s)) in *.
  destruct (loop_case_6_tail fuel addr s1 Hr) as (Hs2 & Hh & Hgo & Honly).
  cbv zeta in Hs2, Hh, Hgo, Honly.
  split; [eapply same_machine_trans; [exact Hs1 | exact Hs2] |].
  split.
  { constructor; [left; reflexivity |].
    apply Forall_app; split; [apply silent_flash_reads_only, He1 | exact Hh]. }
  rewrite !pgm_reads_of_app, (silent_pgm_reads _ He1). cbn [pgm_reads_of omap app].
  split.
  - intros addr' len [= <-] Hle Hlen Hne. exact (Hgo len Hle Hlen Hne).
  - intros Hsome. destruct (Honly Hsome) as (Hle & len & Hlen & Hne).
    exists addr, len. split; [reflexivity |]. split; [exact Hle |].
    split; [exact Hlen | exact Hne].
Qed.

End FlashCase.

Lemma flash_dump_reads_what_is_asked_witness :
  let E := typed [codes "7FFF"; [CH_LF]; codes "3"; [CH_LF]] in
  outcome (readHexInput E 8 init_state) = Done FLASH_END /\
  outcome (loop_case_6 E 8 init_state) = Done tt /\
  pgm_reads_of (events (loop_case_6 E 8 init_state)) = [0x7FFF; 0x8000; 0x8001].
Proof.
  cbv zeta.
  assert (Ha : outcome (readHexInput (typed [codes "7FFF"; [CH_LF]; codes "3"; [CH_LF]])
                          8 init_state) = Done FLASH_END) by (vm_compute; reflexivity).
  split; [exact Ha |].
  destruct (flash_dump_reads_what_is_asked
              (typed [codes "7FFF"; [CH_LF]; codes "3"; [CH_LF]]) 8 init_state)
    as (_ & _ & Hgo & _).
  destruct (Hgo FLASH_END 3 Ha) as [Hout Hreads].
  - reflexivity.
  - vm_compute. reflexivity.
  - discriminate.
  - split; [exact Hout | exact Hreads].
Defined.

(** ** What each command may do *)






Section Remit.

Variable E : Env.
Variable L : Symbols.













End Remit.


(** ** Line ends of two bytes *)

Section CrLf.

Variable E : Env.
Hypothesis steady : clock_steady E INPUT_TIMEOUT_MS.

(** A hex entry ended by CR LF returns at the CR and leaves the LF at the
    head of the receive buffer. *)
Lemma hex_entry_crlf fuel s ds extra :
  rx s = ds ++ CH_CR :: CH_LF :: extra ->
  Forall (fun c => accepted true c = true) ds -> ds <> [] ->
  (length ds < fuel)%nat ->
  outcome (readHexInput E fuel s) =
    Done (uint16 (Z.min (digits_value 16 (take 9 ds)) LONG_MAX)) /\
  exists q, rx (final (readHexInput E fuel s)) = CH_LF :: q.
Proof.
  intros Hrx Hds Hne Hfuel.
  assert (Hnek : take (Z.to_nat (10 - 1)) ([] ++ ds) <> []).
  { destruct ds as [|d ds]; [contradiction | discriminate]. }
  pose proof (line_scan_digits 10 true ds Hds [] CH_CR [] eq_refl
                ltac:(simpl; lia) Hnek) as Hscan.
  cbn [app] in Hscan.
  unfold readHexInput, readInputLine. rewrite bind_millis.
  destruct (readInputLine_loop_scan E 10 true INPUT_TIMEOUT_MS steady ltac:(lia)
              (ds ++ [CH_CR]) [] _ [] fuel fresh_buf 0 (ticks s)
              (set_ticks (S (ticks s)) s) (CH_LF :: extra) Hscan) as (Ho & (more & Hr) & _).
  - cbn [rx set_ticks]. rewrite Hrx, <- app_assoc. reflexivity.
  - split; [reflexivity |]. split; [reflexivity |].
    split; [left; reflexivity | simpl; lia].
  - reflexivity.
  - rewrite length_app. simpl. lia.
  - split.
    + pose proof (strtol_kept true (take 9 ds) (Forall_take _ 9 _ Hds)) as Hk.
      cbv iota in Hk. rewrite Ho. cbv iota.
      change (Z.to_nat (10 - 1)) with 9%nat. rewrite Hk. reflexivity.
    + exists (extra ++ more). exact Hr.
Qed.

Lemma wait_available_ready fuel s c q :
  rx s = c :: q ->
  wait_available E (S fuel) s =
    (Done tt, set_serial (S (polls s)) (rx s ++ env_serial E (polls s)) s, []).
Proof.
  intros Hrx. cbn [wait_available]. rewrite bind_poll.
  destruct (Z.eqb_spec (Z.of_nat (length (rx s ++ env_serial E (polls s)))) 0) as [H0 | _];
    [| reflexivity].
  rewrite Hrx in H0. simpl in H0. lia.
Qed.

(** A yes/no prompt that finds a line feed waiting takes it for its answer. *)
Lemma ask_after_lf (k : M unit) fuel s q :
  rx s = CH_LF :: q -> (1 <= fuel)%nat ->
  let r := (confirm <- read_confirm E fuel ;;
            if declined confirm then emit (Println "Cancelled.") ;;; brk else k) s in
  outcome r = Break /\
  events r = [SerialRead CH_LF; PrintlnChar CH_LF; Println "Cancelled."] /\
  same_machine s (final r).
Proof.
  intros Hrx Hfuel. cbv zeta.
  destruct fuel as [|fuel]; [lia |].
  assert (Hc : read_confirm E (S fuel) s =
               (Done CH_LF,
                set_serial (S (polls s)) (q ++ env_serial E (polls s)) s,
                [SerialRead CH_LF; PrintlnChar CH_LF])).
  { unfold read_confirm. rewrite bind_run, (wait_available_ready fuel s CH_LF q Hrx).
    run_proj. rewrite Hrx. reflexivity. }
  rewrite bind_run, Hc. run_proj.
  change (declined CH_LF) with true. cbv iota.
  split; [reflexivity |]. split; [reflexivity | repeat split].
Qed.

Lemma call_flash_after_lf fuel w s q :
  rx s = CH_LF :: q -> (1 <= fuel)%nat ->
  outcome (call_flash E fuel w s) = Break /\
  silent (events (call_flash E fuel w s)) /\
  same_machine s (final (call_flash E fuel w s)).
Proof.
  intros Hrx Hfuel. unfold call_flash, to_byte_address.
  destruct (w =? INPUT_TIMEOUT_SENTINEL).
  { split; [reflexivity |]. split; [constructor | apply same_machine_refl]. }
  destruct (FLASH_END <? uint32 (w * 2)).
  { split; [reflexivity |]. split; [repeat constructor | apply same_machine_refl]. }
  rewrite !bind_emit. run_proj.
  destruct (ask_after_lf
              (emit (Println "Restoring registers and jumping...") ;;;
               emit Flush ;;; emit (Delay 100) ;;;
               restore_and_call E w ;;; emit (Println "Returned from call."))
              fuel s q Hrx Hfuel) as (Ho & He & Hm).
  cbv zeta in Ho, He, Hm. rewrite Ho, He.
  split; [reflexivity |]. split; [repeat constructor | exact Hm].
Qed.

Lemma write_memory_check_after_lf fuel addr s q :
  rx s = CH_LF :: q -> (1 <= fuel)%nat ->
  isValidSRAMAddress addr = false ->
  outcome (write_memory_check E fuel addr s) = Break.
Proof.
  intros Hrx Hfuel Hv. unfold write_memory_check. rewrite Hv. cbn [negb].
  rewrite bind_emit, (bind_pure _ _ _ _ _ (printHex16_run _ _)), bind_emit. run_proj.
  destruct (isIOAddress addr); [| reflexivity].
  rewrite !bind_emit. run_proj.
  destruct (ask_after_lf (ret tt) fuel s q Hrx Hfuel) as (Ho & _).
  exact Ho.
Qed.

Lemma read_memory_check_after_lf fuel addr s q :
  rx s = CH_LF :: q -> (1 <= fuel)%nat ->
  isValidSRAMAddress addr = false ->
  outcome (read_memory_check E fuel addr s) = Break.
Proof.
  intros Hrx Hfuel Hv. unfold read_memory_check. rewrite Hv. cbn [negb].
  rewrite bind_emit, (bind_pure _ _ _ _ _ (printHex16_run _ _)), bind_emit.
  assert (Hio :
    (if isIOAddress addr then emit (Println "This is in I/O register space.") else ret tt) s =
    (Done tt, s, if isIOAddress addr then [Println "This is in I/O register space."] else [])).
  { destruct (isIOAddress addr); reflexivity. }
  rewrite (bind_pure _ _ _ _ _ Hio), bind_emit. run_proj.
  destruct (ask_after_lf (ret tt) fuel s q Hrx Hfuel) as (Ho & _).
  exact Ho.
Qed.

End CrLf.

(** X10: a two-byte line end answers the next yes/no prompt.  When an
    address is typed in hex and ended by CR LF, line entry returns at the CR
    and the LF stays in the receive buffer; the yes/no prompt that follows
    takes that LF for its answer, and it is not y or Y.  So with CR LF line
    ends case '5' never makes the call, and for an address outside SRAM case
    '4' never writes and case '3' never reads: each ends at its prompt (or
    at its address check) with console traffic only and memory, snapshot and
    registers untouched. *)
Theorem crlf_line_end_declines_the_prompt (E : Env) (fuel : nat) (s : State)
    (ds extra : list Z) :
  clock_steady E INPUT_TIMEOUT_MS ->
  rx s = ds ++ CH_CR :: CH_LF :: extra ->
  Forall (fun c => accepted true c = true) ds -> ds <> [] ->
  (length ds < fuel)%nat ->
  let addr := uint16 (Z.min (digits_value 16 (take 9 ds)) LONG_MAX) in
  (outcome (loop_case_5 E fuel s) = Break /\
   silent (events (loop_case_5 E fuel s)) /\
   same_machine s (final (loop_case_5 E fuel s))) /\
  (isValidSRAMAddress addr = false ->
   (outcome (loop_case_4 E fuel s) = Break /\
    silent (events (loop_case_4 E fuel s)) /\
    same_machine s (final (loop_case_4 E fuel s))) /\
   (outcome (loop_case_3 E fuel s) = Break /\
    silent (events (loop_case_3 E fuel s)) /\
    same_machine s (final (loop_case_3 E fuel s)))).
Proof.
  intros Hsteady Hrx Hds Hne Hfuel. cbv zeta.
  destruct (hex_entry_crlf E Hsteady fuel s ds extra Hrx Hds Hne Hfuel) as (Ho & q & Hq).
  destruct (quiet_readHexInput E fuel s) as [Hs1 He1].
  assert (H1 : (1 <= fuel)%nat) by lia.
  set (addr := uint16 (Z.min (digits_value 16 (take 9 ds)) LONG_MAX)) in *.
  set (s1 := final (readHexInput E fuel s)) in *.
  split; [| intros Hv; split].
  - unfold loop_case_5. rewrite bind_emit. run_proj.
    rewrite outcome_bind, final_bind, events_bind, Ho. fold s1.
    destruct (call_flash_after_lf E fuel addr s1 q Hq H1) as (Hco & Hce & Hcm).
    split; [exact Hco |]. split.
    + constructor; [reflexivity |]. apply Forall_app; split; assumption.
    + eapply same_machine_trans; eassumption.
  - unfold loop_case_4. rewrite bind_emit. run_proj.
    rewrite outcome_bind, final_bind, events_bind, Ho. fold s1.
    destruct (addr =? INPUT_TIMEOUT_SENTINEL).
    { split; [reflexivity |]. split.
      - constructor; [reflexivity |]. rewrite app_nil_r. exact He1.
      - exact Hs1. }
    rewrite outcome_bind, final_bind, events_bind,
      (write_memory_check_after_lf E fuel addr s1 q Hq H1 Hv).
    destruct (quiet_write_memory_check E fuel addr s1) as [Hcm Hce].
    split; [reflexivity |]. split.
    + constructor; [reflexivity |]. apply Forall_app; split; assumption.
    + eapply same_machine_trans; eassumption.
  - unfold loop_case_3. rewrite bind_emit. run_proj.
    rewrite outcome_bind, final_bind, events_bind, Ho. fold s1.
    destruct (addr =? INPUT_TIMEOUT_SENTINEL).
    { split; [reflexivity |]. split.
      - constructor; [reflexivity |]. rewrite app_nil_r. exact He1.
      - exact Hs1. }
    rewrite outcome_bind, final_bind, events_bind,
      (read_memory_check_after_lf E fuel addr s1 q Hq H1 Hv).
    destruct (quiet_read_memory_check E fuel addr s1) as [Hcm Hce].
    split; [reflexivity |]. split.
    + constructor; [reflexivity |]. apply Forall_app; split; assumption.
    + eapply same_machine_trans; eassumption.
Qed.

Lemma crlf_line_end_declines_the_prompt_witness :
  let s := received (codes "100" ++ [CH_CR; CH_LF; CH_y]) in
  outcome (loop_case_5 (typed []) 5 s) = Break /\
  silent (events (loop_case_5 (typed []) 5 s)).
Proof.
  cbv zeta.
  destruct (crlf_line_end_declines_the_prompt (typed []) 5
              (received (codes "100" ++ [CH_CR; CH_LF; CH_y]))
              (codes "100") [CH_y]) as [(Ho & He & _) _].
  - apply typed_clock_steady. unfold INPUT_TIMEOUT_MS. lia.
  - reflexivity.
  - repeat constructor.
  - discriminate.
  - simpl. lia.
  - split; [exact Ho | exact He].
Defined.

(** ** The one store of the write case *)

(** X11: case '4' stores at most once, and only to SRAM or to the I/O
    region.  Whatever is typed, a run of the case either emits console
    traffic only and leaves data memory as it was, or performs exactly one
    raw store, at an address that is in SRAM or in the I/O region (every
    other address is refused before the store), reads that address back at
    once, and emits console traffic otherwise.  When the address is in SRAM
    the cell then holds the value stored and every other cell is as
    before. *)
Theorem write_case_stores_once_in_sram_or_io (E : Env) (fuel : nat) (s : State) :
  let r := loop_case_4 E fuel s in
  (silent (events r) /\ mem (final r) = mem s) \/
  exists pre addr val readback post,
    events r = pre ++ Store addr val :: Load addr readback :: post /\
    silent pre /\ silent post /\
    (isValidSRAMAddress addr = true \/ isIOAddress addr = true) /\
    (isValidSRAMAddress addr = true ->
       mem (final r) addr = val /\
       forall x, x <> addr -> mem (final r) x = mem s x).
Proof.
  cbv zeta.
  destruct (loop_case_4_shape E fuel s) as [[He Hm] | H]; cbv zeta in *.
  { left. split; [exact He | apply Hm]. }
  destruct H as (addr & val & s1 & s2 & pre & mid & Hdone & Hpre & Hmid & Hmem & Hev & Hfin).
  right.
  rewrite write_memory_verify_run in Hev, Hfin.
  rewrite events_mk in Hev. rewrite final_mk in Hfin.
  destruct (quiet_write_memory_check E fuel addr s1) as [_ Hchk].
  exists (pre ++ events (write_memory_check E fuel addr s1) ++ mid ++
          Print "Writing 0x" :: hex8_trace val ++
          Print " to 0x" :: hex16_trace addr ++ [Print "... "]),
         addr, val, (uint8 (kept_value E s2 addr val)),
         (if uint8 (kept_value E s2 addr val) =? val then [Println "Verified."]
          else Print "FAILED (Readback: 0x" ::
               hex8_trace (uint8 (kept_value E s2 addr val)) ++ [Println ")"]).
  split; [| split; [| split; [| split]]].
  - rewrite Hev. rewrite <- !app_assoc. cbn [app].
    repeat (rewrite <- ?app_assoc; cbn [app]; f_equal).
  - apply Forall_app; split; [exact Hpre |].
    apply Forall_app; split; [exact Hchk |].
    apply Forall_app; split; [exact Hmid |].
    constructor; [reflexivity |].
    apply Forall_app; split; [apply silent_hex8 |].
    constructor; [reflexivity |].
    apply Forall_app; split; [apply silent_hex16 | repeat constructor].
  - destruct (uint8 (kept_value E s2 addr val) =? val); [repeat constructor |].
    constructor; [reflexivity |].
    apply Forall_app; split; [apply silent_hex8 | repeat constructor].
  - pose proof (write_memory_check_decides E fuel addr s1) as Hd. cbv zeta in Hd.
    unfold authorize in Hd.
    destruct (isValidSRAMAddress addr); [left; reflexivity |].
    destruct (isIOAddress addr); [right; reflexivity |].
    rewrite Hd in Hdone. discriminate Hdone.
  - intros Hsram. rewrite Hfin. cbn [mem set_mem]. split.
    + rewrite Z.eqb_refl. unfold kept_value. rewrite Hsram. reflexivity.
    + intros x Hx. destruct (Z.eqb_spec x addr) as [? | _]; [contradiction |].
      rewrite Hmem. reflexivity.
Qed.

(** ** The call of the flash case *)


